(** * pwnlib.heap: bin walks and the heap explorer facade

    A shallow embedding of [pwnlib/heap/bins/bin_parser.py],
    [pwnlib/heap/glmalloc/bins/bin.py] and [pwnlib/heap/heap_explorer.py].

    Python integers are [Z]; Python lists are [list]; a method that can
    raise returns a [result]; a method that calls a collaborator (a parser
    that reads the target's memory) runs in the monad [M], which records
    every such call in a trace. The [while] loop of the bin walk is a
    function with fuel: [None] means that the fuel ran out before the loop
    ended, and says nothing else. *)

From Stdlib Require Import ZArith Lia.
From Stdlib Require DecimalString HexadecimalString.
From stdpp Require Import base option list gmap strings.
Import (notations) Stdlib.Strings.Ascii.

#[local] Set Warnings "-clear-no-such-hyp".

Local Open Scope Z_scope.

(** ** Exceptions and results *)

(** The exception classes the modelled code raises or catches. [OSError]
    is what a failed read of the target's memory raises; [OtherError]
    stands for any other class. *)
Inductive exn : Type :=
| OSError
| IndexError
| NoTcacheError
| OtherError.

Inductive result (A : Type) : Type :=
| Ok (a : A)
| Raise (e : exn).
Arguments Ok {A} a.
Arguments Raise {A} e.

(** Python's [l[i]] on a list: a negative index counts from the end, and
    an index outside [-len(l) .. len(l)-1] raises [IndexError]. *)
Definition list_getitem {A} (l : list A) (i : Z) : result A :=
  let n := Z.of_nat (length l) in
  let j := if i <? 0 then i + n else i in
  if (0 <=? j) && (j <? n)
  then match l !! Z.to_nat j with
       | Some x => Ok x
       | None => Raise IndexError
       end
  else Raise IndexError.

(** Python's [<] on tuples of integers: lexicographic, a proper prefix
    being smaller. *)
Fixpoint tuple_lt (a b : list Z) : bool :=
  match a, b with
  | [], [] => false
  | [], _ :: _ => true
  | _ :: _, [] => false
  | x :: a', y :: b' =>
      if x <? y then true else if y <? x then false else tuple_lt a' b'
  end.

(** ** Data model *)

Module MallocChunk.
(** The attributes of a parsed chunk (spec, section 3). *)
Record t : Type := mk {
  address : Z;
  prev_size : Z;
  raw_size : Z;
  size : Z;
  prev_in_use : bool;
  mmapped : bool;
  non_main_arena : bool;
  fd : Z;
  bk : Z;
  fd_nextsize : Z;
  bk_nextsize : Z;
  fd_demangled : Z
}.
End MallocChunk.

Module BinEntry.
(** The class of a bin entry object; the three classes of the
    doubly-linked bins are exported by [pwnlib/heap/__init__.py]. *)
Inductive cls : Type := UnsortedBinEntry | SmallBinEntry | LargeBinEntry.

(** [class BinEntry] of bin.py: [__init__(address, fd, bk=0, chunks_size=0)]. *)
Record t : Type := mk {
  class : cls;
  address : Z;
  fd : Z;
  bk : Z;
  chunks_size : Z
}.
End BinEntry.

Module Bin.
Inductive cls : Type := UnsortedBin | SmallBin | LargeBin.

(** [class Bin] of bin.py. *)
Record t : Type := mk {
  class : cls;
  _bin_entry : BinEntry.t;
  _malloc_chunks : list MallocChunk.t;
  _safe_link : bool
}.

(** The default of the keyword argument of [Bin.__init__]. *)
Definition safe_link_default : bool := false.

(** [Bin.__init__(self, bin_entry, malloc_chunks, safe_link=False)]; the
    keyword argument is [None] when the caller leaves it out. *)
Definition __init__ (c : cls) (bin_entry : BinEntry.t)
    (malloc_chunks : list MallocChunk.t) (safe_link : option bool) : t :=
  {| class := c;
     _bin_entry := bin_entry;
     _malloc_chunks := malloc_chunks;
     _safe_link := default safe_link_default safe_link |}.

Definition bin_entry (self : t) : BinEntry.t := _bin_entry self.
Definition fd (self : t) : Z := BinEntry.fd (bin_entry self).
Definition bk (self : t) : Z := BinEntry.bk (bin_entry self).
Definition chunks_size (self : t) : Z := BinEntry.chunks_size (bin_entry self).
Definition malloc_chunks (self : t) : list MallocChunk.t := _malloc_chunks self.
Definition chunks (self : t) : list MallocChunk.t := malloc_chunks self.
Definition __len__ (self : t) : Z := Z.of_nat (length (malloc_chunks self)).
End Bin.

Module MallocState.
(** The attributes of a malloc state that the modelled code reads. *)
Record t : Type := mk {
  address : Z;
  top : Z;
  next : Z;
  unsorted_bin : BinEntry.t;
  small_bins : list BinEntry.t;
  large_bins : list BinEntry.t
}.
End MallocState.

Module Heap.
Record t : Type := mk {
  chunks : list MallocChunk.t;
  top : option MallocChunk.t
}.
End Heap.

(** ** Calls to collaborators, and the monad that records them *)

Inductive event : Type :=
| ParseChunk (address : Z)
| ParseAllMallocStates (main_arena_address : Z)
| ParseHeap (malloc_state : MallocState.t)
| ParseTcaches (malloc_state : MallocState.t).

(** A computation: the calls made so far, and a value or an exception. *)
Definition M (A : Type) : Type := list event * result A.

Definition ret {A} (a : A) : M A := ([], Ok a).
Definition raise {A} (e : exn) : M A := ([], Raise e).
Definition bind {A B} (m : M A) (k : A -> M B) : M B :=
  match m with
  | (tr, Ok a) => let '(tr', r) := k a in (tr ++ tr', r)
  | (tr, Raise e) => (tr, Raise e)
  end.
(** One call to a collaborator whose answer is [r]. *)
Definition call {A} (ev : event) (r : result A) : M A := ([ev], r).

Notation "'let*' x ':=' m 'in' k" := (bind m (fun x => k))
  (at level 10, x name, m at level 100, k at level 200).

(** A [for] loop that appends [f x] to a list for every [x]. *)
Fixpoint for_each {A B} (f : A -> M B) (xs : list A) (acc : list B) : M (list B) :=
  match xs with
  | [] => ret acc
  | x :: xs' => let* y := f x in for_each f xs' (acc ++ [y])
  end.

(** ** The chunk parser *)

Module MallocChunkParser.
(** What bin_parser.py uses of a chunk parser: its [pointer_size] and the
    answer of [parse_from_address] at every address. *)
Record t : Type := mk {
  pointer_size : Z;
  parse_from_address : Z -> result MallocChunk.t
}.

(** Modelled from the spec: section 3, [demangle(ptr, loc) = ptr XOR
    (loc >> 12)]. *)
Definition demangle (ptr loc : Z) : Z := Z.lxor ptr (Z.shiftr loc 12).

(** Modelled from the spec: [MallocChunkParser] is not among the sources.
    Section 4.1: the parser reads the six words at [A], [A+P], ...,
    [A+5P] and fails with a read error when the range cannot be served;
    [size] is [raw_size & ~0x7], the three low bits are the flags, and
    [fd_demangled = fd XOR ((A+2P) >> 12)]. [words] gives the word that is
    readable at each address (a finite map: the target's memory is
    finite). *)
Definition parse (P : Z) (words : gmap Z Z) (A : Z) : result MallocChunk.t :=
  match words !! A, words !! (A + P), words !! (A + 2 * P),
        words !! (A + 3 * P), words !! (A + 4 * P), words !! (A + 5 * P) with
  | Some prev_size, Some raw_size, Some fd, Some bk, Some fd_nextsize, Some bk_nextsize =>
      Ok {| MallocChunk.address := A;
            MallocChunk.prev_size := prev_size;
            MallocChunk.raw_size := raw_size;
            MallocChunk.size := Z.land raw_size (Z.lnot 7);
            MallocChunk.prev_in_use := Z.testbit raw_size 0;
            MallocChunk.mmapped := Z.testbit raw_size 1;
            MallocChunk.non_main_arena := Z.testbit raw_size 2;
            MallocChunk.fd := fd;
            MallocChunk.bk := bk;
            MallocChunk.fd_nextsize := fd_nextsize;
            MallocChunk.bk_nextsize := bk_nextsize;
            MallocChunk.fd_demangled := demangle fd (A + 2 * P) |}
  | _, _, _, _, _, _ => Raise OSError
  end.

(** Modelled from the spec: the chunk parser of a target with pointer
    size [P] and readable words [words]. *)
Definition of_memory (P : Z) (words : gmap Z Z) : t :=
  {| pointer_size := P; parse_from_address := parse P words |}.
End MallocChunkParser.

(** ** bin_parser.py *)

Module BinFactory.
(** Modelled from the spec: [bin_factory.py] and the subclasses of [Bin]
    for the doubly-linked bins are not among the sources. Section 3: a
    bin is its entry, the ordered list of chunks and the [safe_link]
    flag; section 4.5: unsorted, small and large bins are not
    safe-linked, so the subclasses leave [safe_link] at the default of
    [Bin.__init__]. The class of the bin follows the class of the entry. *)
Definition create (bin_entry : BinEntry.t) (chunks : list MallocChunk.t) : Bin.t :=
  let c := match BinEntry.class bin_entry with
           | BinEntry.UnsortedBinEntry => Bin.UnsortedBin
           | BinEntry.SmallBinEntry => Bin.SmallBin
           | BinEntry.LargeBinEntry => Bin.LargeBin
           end in
  Bin.__init__ c bin_entry chunks None.
End BinFactory.

Module BinParser.
Record t : Type := mk {
  _pointer_size : Z;
  _malloc_chunk_parser : MallocChunkParser.t
}.

Definition __init__ (malloc_chunk_parser : MallocChunkParser.t) : t :=
  {| _pointer_size := MallocChunkParser.pointer_size malloc_chunk_parser;
     _malloc_chunk_parser := malloc_chunk_parser |}.

(** The [while] loop of [_parse_from_bin_entry]. [tr] is the trace of
    the calls made so far; [addresses] and [chunks] are the two lists the
    loop appends to. The loop ends when [current_address] is in
    [addresses], when the parser raises [OSError] (the [break] of the
    handler), or when the parser raises anything else (which is not
    caught). It returns the final [addresses] along with [chunks]. *)
Fixpoint walk (fuel : nat) (self : t) (tr : list event)
    (addresses : list Z) (chunks : list MallocChunk.t)
    (current_address : Z) : option (M (list Z * list MallocChunk.t)) :=
  match fuel with
  | O => None
  | S fuel' =>
      if bool_decide (current_address ∈ addresses)
      then Some (tr, Ok (addresses, chunks))
      else
        let addresses := addresses ++ [current_address] in
        let tr := tr ++ [ParseChunk current_address] in
        match MallocChunkParser.parse_from_address
                (_malloc_chunk_parser self) current_address with
        | Ok chunk =>
            walk fuel' self tr addresses (chunks ++ [chunk]) (MallocChunk.fd chunk)
        | Raise OSError => Some (tr, Ok (addresses, chunks))
        | Raise e => Some (tr, Raise e)
        end
  end.

Definition base_bin_address (self : t) (bin_entry : BinEntry.t) : Z :=
  BinEntry.address bin_entry - (_pointer_size self * 2).

(** The state of the walk when the loop ends: [(addresses, chunks)]. *)
Definition walk_from_bin_entry (fuel : nat) (self : t) (bin_entry : BinEntry.t)
    : option (M (list Z * list MallocChunk.t)) :=
  walk fuel self [] [base_bin_address self bin_entry] [] (BinEntry.fd bin_entry).

Definition _parse_from_bin_entry (fuel : nat) (self : t) (bin_entry : BinEntry.t)
    : option (M Bin.t) :=
  match walk_from_bin_entry fuel self bin_entry with
  | None => None
  | Some m => Some (let* st := m in ret (BinFactory.create bin_entry (snd st)))
  end.

Definition parse_unsorted_bin_from_malloc_state (fuel : nat) (self : t)
    (malloc_state : MallocState.t) : option (M Bin.t) :=
  _parse_from_bin_entry fuel self (MallocState.unsorted_bin malloc_state).

(** The two [for] loops over the small and the large entries. Every
    entry gets the same fuel; the loop as a whole runs out of fuel when
    one of its walks does. *)
Fixpoint parse_entries (fuel : nat) (self : t) (entries : list BinEntry.t)
    (tr : list event) (bins : list Bin.t) : option (M (list Bin.t)) :=
  match entries with
  | [] => Some (tr, Ok bins)
  | entry :: entries' =>
      match _parse_from_bin_entry fuel self entry with
      | None => None
      | Some (tr', Ok b) => parse_entries fuel self entries' (tr ++ tr') (bins ++ [b])
      | Some (tr', Raise e) => Some (tr ++ tr', Raise e)
      end
  end.

Definition parse_small_bins_from_malloc_state (fuel : nat) (self : t)
    (malloc_state : MallocState.t) : option (M (list Bin.t)) :=
  parse_entries fuel self (MallocState.small_bins malloc_state) [] [].

Definition parse_large_bins_from_malloc_state (fuel : nat) (self : t)
    (malloc_state : MallocState.t) : option (M (list Bin.t)) :=
  parse_entries fuel self (MallocState.large_bins malloc_state) [] [].
End BinParser.

(** ** heap_explorer.py and its collaborators *)

Module Tcaches.
(** A [Bins] sequence of bin.py: [Bins(bins)]. *)
Record t : Type := mk { _bins : list Bin.t }.
Definition bins (self : t) : list Bin.t := _bins self.
End Tcaches.

Module ProcessInformer.
(** The informer capability (spec, section 6.1), as far as
    heap_explorer.py consumes it. *)
Record t : Type := mk {
  main_arena_address : Z;
  pointer_size : Z;
  libc_version : list Z
}.

(** Modelled from the spec: [process_informer.py] is not among the
    sources. Section 6.1: [is_libc_version_lower_than((M, m))] is
    derivable from [libc_version], a tuple [(major, minor, patch?)]. *)
Definition is_libc_version_lower_than (self : t) (version : list Z) : bool :=
  tuple_lt (libc_version self) version.
End ProcessInformer.

Module MallocStateParser.
(** What heap_explorer.py uses of the malloc state parser. *)
Record t : Type := mk {
  parse_all_from_main_malloc_state_address : Z -> result (list MallocState.t)
}.

(** Modelled from the spec: [malloc_state.py] is not among the sources.
    Section 4.2: the walk starts at the main arena, follows [next],
    emits each malloc state once and ends at a [next] that has already
    been observed; section 7: an arena that cannot be read is skipped,
    which ends the enumeration since it has no [next] to follow.
    [arenas] gives the malloc state that is decoded at each readable
    address. [None] means that the fuel ran out. *)
Fixpoint ring (fuel : nat) (arenas : gmap Z MallocState.t)
    (observed : list Z) (states : list MallocState.t) (current : Z)
    : option (list MallocState.t) :=
  match fuel with
  | O => None
  | S fuel' =>
      match arenas !! current with
      | None => Some states
      | Some malloc_state =>
          let observed := observed ++ [current] in
          let states := states ++ [malloc_state] in
          if bool_decide (MallocState.next malloc_state ∈ observed)
          then Some states
          else ring fuel' arenas observed states (MallocState.next malloc_state)
      end
  end.

(** Modelled from the spec: the walk of the ring from the main arena.
    One more unit of fuel than there are readable arenas is always enough
    (lemma [ring_total]), so the last case is never reached. *)
Definition parse_all (arenas : gmap Z MallocState.t) (main : Z)
    : result (list MallocState.t) :=
  match ring (S (size arenas)) arenas [] [] main with
  | Some states => Ok states
  | None => Raise OtherError
  end.

(** Modelled from the spec: the malloc state parser of a target whose
    readable arenas are [arenas]. *)
Definition of_arenas (arenas : gmap Z MallocState.t) : t :=
  {| parse_all_from_main_malloc_state_address := parse_all arenas |}.
End MallocStateParser.

Module HeapParser.
(** What heap_explorer.py uses of the heap parser. *)
Record t : Type := mk {
  parse_from_malloc_state : MallocState.t -> result Heap.t
}.
End HeapParser.

Module TcacheParser.
(** The two tcache parsers [HeapExplorer.__init__] chooses between. The
    enabled one is built from the chunk parser and the heap parser;
    [enabled_parse] is its answer for every malloc state. *)
Inductive t : Type :=
| EnabledTcacheParser (enabled_parse : MallocState.t -> result Tcaches.t)
| DisabledTcacheParser.

(** Modelled from the spec: the tcache parsers are not among the
    sources. Section 4.6: the disabled variant fails with
    [NoTcacheError]. *)
Definition parse_all_from_malloc_state (self : t) (malloc_state : MallocState.t)
    : M Tcaches.t :=
  match self with
  | EnabledTcacheParser enabled_parse =>
      call (ParseTcaches malloc_state) (enabled_parse malloc_state)
  | DisabledTcacheParser => raise NoTcacheError
  end.
End TcacheParser.

Module Collaborators.
(** The objects [HeapExplorer.__init__(pid, libc)] builds for a target:
    the informer for [(pid, libc)] and the parsers on top of it. *)
Record t : Type := mk {
  process_informer : ProcessInformer.t;
  malloc_state_parser : MallocStateParser.t;
  malloc_chunk_parser : MallocChunkParser.t;
  heap_parser : HeapParser.t;
  enabled_tcache_parse : MallocState.t -> result Tcaches.t
}.
End Collaborators.

Module HeapExplorer.
Record t : Type := mk {
  _process_informer : ProcessInformer.t;
  _main_arena_address : Z;
  _pointer_size : Z;
  _malloc_state_parser : MallocStateParser.t;
  _heap_parser : HeapParser.t;
  _bin_parser : BinParser.t;
  tcaches_enabled : bool;
  _tcache_parser : TcacheParser.t
}.

Definition all_arenas_malloc_states (self : t) : M (list MallocState.t) :=
  call (ParseAllMallocStates (_main_arena_address self))
       (MallocStateParser.parse_all_from_main_malloc_state_address
          (_malloc_state_parser self) (_main_arena_address self)).

Definition arenas_count (self : t) : M Z :=
  let* states := all_arenas_malloc_states self in
  ret (Z.of_nat (length states)).

Definition malloc_state (self : t) (arena_index : Z) : M MallocState.t :=
  let* states := all_arenas_malloc_states self in
  ([], list_getitem states arena_index).

Definition heap (self : t) (arena_index : Z) : M Heap.t :=
  let* malloc_state := malloc_state self arena_index in
  call (ParseHeap malloc_state)
       (HeapParser.parse_from_malloc_state (_heap_parser self) malloc_state).

Definition _are_tcaches_enabled (self : t) : M bool :=
  if ProcessInformer.is_libc_version_lower_than (_process_informer self) [2; 26]
  then ret false
  else
    let tcache_chunk_size := _pointer_size self * 64 + 0x50 in
    let* heap := heap self 0 in
    let* chunk := ([], list_getitem (Heap.chunks heap) 0) in
    ret (tcache_chunk_size =? MallocChunk.size chunk).

(** [__init__]: [self.tcaches_enabled] and [self._tcache_parser] are
    assigned after [_are_tcaches_enabled] has run on the object built so
    far ([partial] below, whose last two attributes are placeholders that
    [_are_tcaches_enabled] does not read). *)
Definition __init__ (c : Collaborators.t) : M t :=
  let process_informer := Collaborators.process_informer c in
  let partial :=
    {| _process_informer := process_informer;
       _main_arena_address := ProcessInformer.main_arena_address process_informer;
       _pointer_size := ProcessInformer.pointer_size process_informer;
       _malloc_state_parser := Collaborators.malloc_state_parser c;
       _heap_parser := Collaborators.heap_parser c;
       _bin_parser := BinParser.__init__ (Collaborators.malloc_chunk_parser c);
       tcaches_enabled := false;
       _tcache_parser := TcacheParser.DisabledTcacheParser |} in
  let* enabled := _are_tcaches_enabled partial in
  ret {| _process_informer := _process_informer partial;
         _main_arena_address := _main_arena_address partial;
         _pointer_size := _pointer_size partial;
         _malloc_state_parser := _malloc_state_parser partial;
         _heap_parser := _heap_parser partial;
         _bin_parser := _bin_parser partial;
         tcaches_enabled := enabled;
         _tcache_parser :=
           if enabled
           then TcacheParser.EnabledTcacheParser (Collaborators.enabled_tcache_parse c)
           else TcacheParser.DisabledTcacheParser |}.

Definition tcaches (self : t) (arena_index : Z) : M Tcaches.t :=
  if negb (tcaches_enabled self)
  then raise NoTcacheError
  else
    let* malloc_state := malloc_state self arena_index in
    TcacheParser.parse_all_from_malloc_state (_tcache_parser self) malloc_state.

Definition all_arenas_tcaches (self : t) : M (list Tcaches.t) :=
  if negb (tcaches_enabled self)
  then raise NoTcacheError
  else
    let* malloc_states := all_arenas_malloc_states self in
    for_each (TcacheParser.parse_all_from_malloc_state (_tcache_parser self))
             malloc_states [].
End HeapExplorer.

(** ** Runs of the bin walk *)

(** [trail parse current addresses chunks]: starting the loop at
    [current], the addresses it appends are [addresses] and the chunks it
    appends are [chunks]. The loop ends at an address it has already
    visited ([trail_stop]), at a failed parse ([trail_fail]), or goes on
    from the raw [fd] of the chunk it has parsed ([trail_step]). *)
Inductive trail (parse : Z -> result MallocChunk.t)
    : Z -> list Z -> list MallocChunk.t -> Prop :=
| trail_stop current : trail parse current [] []
| trail_fail current e :
    parse current = Raise e -> trail parse current [current] []
| trail_step current chunk addresses chunks :
    parse current = Ok chunk ->
    trail parse (MallocChunk.fd chunk) addresses chunks ->
    trail parse current (current :: addresses) (chunk :: chunks).

(** The addresses of the [ParseChunk] calls of a trace. *)
Definition parse_calls (tr : list event) : list Z :=
  omap (fun ev => match ev with ParseChunk a => Some a | _ => None end) tr.

(** A chunk parser that answers like [p] except that every chunk carries
    [g chunk] as its [fd_demangled]. *)
Definition set_fd_demangled (v : Z) (c : MallocChunk.t) : MallocChunk.t :=
  {| MallocChunk.address := MallocChunk.address c;
     MallocChunk.prev_size := MallocChunk.prev_size c;
     MallocChunk.raw_size := MallocChunk.raw_size c;
     MallocChunk.size := MallocChunk.size c;
     MallocChunk.prev_in_use := MallocChunk.prev_in_use c;
     MallocChunk.mmapped := MallocChunk.mmapped c;
     MallocChunk.non_main_arena := MallocChunk.non_main_arena c;
     MallocChunk.fd := MallocChunk.fd c;
     MallocChunk.bk := MallocChunk.bk c;
     MallocChunk.fd_nextsize := MallocChunk.fd_nextsize c;
     MallocChunk.bk_nextsize := MallocChunk.bk_nextsize c;
     MallocChunk.fd_demangled := v |}.

Definition remangle (g : MallocChunk.t -> Z) (c : MallocChunk.t) : MallocChunk.t :=
  set_fd_demangled (g c) c.

Definition remangled_parser (g : MallocChunk.t -> Z) (p : MallocChunkParser.t)
    : MallocChunkParser.t :=
  {| MallocChunkParser.pointer_size := MallocChunkParser.pointer_size p;
     MallocChunkParser.parse_from_address := fun a =>
       match MallocChunkParser.parse_from_address p a with
       | Ok c => Ok (remangle g c)
       | Raise e => Raise e
       end |}.

(** The final state of a walk and a returned bin, with every chunk
    remangled. *)
Definition remangle_state (g : MallocChunk.t -> Z)
    (m : M (list Z * list MallocChunk.t)) : M (list Z * list MallocChunk.t) :=
  match m with
  | (tr, Ok (addresses, chunks)) => (tr, Ok (addresses, map (remangle g) chunks))
  | (tr, Raise e) => (tr, Raise e)
  end.

Definition remangle_bin (g : MallocChunk.t -> Z) (m : M Bin.t) : M Bin.t :=
  match m with
  | (tr, Ok b) =>
      (tr, Ok {| Bin.class := Bin.class b;
                 Bin._bin_entry := Bin._bin_entry b;
                 Bin._malloc_chunks := map (remangle g) (Bin._malloc_chunks b);
                 Bin._safe_link := Bin._safe_link b |})
  | (tr, Raise e) => (tr, Raise e)
  end.

(** ** Memory images used as concrete inputs *)

Module Fixtures.
(** The words [ws] stored from [base] on, [P] bytes apart. *)
Definition words_at (base P : Z) (ws : list Z) : gmap Z Z :=
  list_to_map (imap (fun i w => (base + Z.of_nat i * P, w)) ws).

(** A 64-bit target. The unsorted cell of the malloc state is at
    [0x7010], so the head of the bin, seen as a chunk, is at [0x7000]. *)
Definition unsorted_entry : BinEntry.t :=
  {| BinEntry.class := BinEntry.UnsortedBinEntry;
     BinEntry.address := 0x7010;
     BinEntry.fd := 0xC000;
     BinEntry.bk := 0xC000;
     BinEntry.chunks_size := 0 |}.

(** The bins area of the malloc state from [0x7010] on: the unsorted
    cell, then two empty small cells. *)
Definition bins_words : gmap Z Z :=
  words_at 0x7010 8 [0xC000; 0xC000; 0x7010; 0x7010; 0x7020; 0x7020].

(** One free chunk at [0xC000] whose [fd] is the address of the entry. *)
Definition fd_is_entry_address : gmap Z Z :=
  words_at 0xC000 8 [0; 0x91; 0x7010; 0x7010; 0; 0] ∪ bins_words.

(** One free chunk at [0xC000] whose [fd] is the head of the bin. *)
Definition fd_is_head : gmap Z Z :=
  words_at 0xC000 8 [0; 0x91; 0x7000; 0x7000; 0; 0] ∪ bins_words.

(** A chunk at [0xC000] whose [fd] points at [0xD000], which is not
    readable. *)
Definition fd_unreadable : gmap Z Z :=
  words_at 0xC000 8 [0; 0x91; 0xD000; 0x7000; 0; 0] ∪ bins_words.

Definition bin_parser (words : gmap Z Z) : BinParser.t :=
  BinParser.__init__ (MallocChunkParser.of_memory 8 words).

Definition chunk_C000 (fd bk : Z) : MallocChunk.t :=
  {| MallocChunk.address := 0xC000;
     MallocChunk.prev_size := 0;
     MallocChunk.raw_size := 0x91;
     MallocChunk.size := 0x90;
     MallocChunk.prev_in_use := true;
     MallocChunk.mmapped := false;
     MallocChunk.non_main_arena := false;
     MallocChunk.fd := fd;
     MallocChunk.bk := bk;
     MallocChunk.fd_nextsize := 0;
     MallocChunk.bk_nextsize := 0;
     MallocChunk.fd_demangled := Z.lxor fd 0xC |}.

(** A ring of two arenas: the main arena at [0x6000] and a second one
    at [0x9000]; and a ring of the main arena alone. *)
Definition arena (address next : Z) : MallocState.t :=
  {| MallocState.address := address;
     MallocState.top := 0;
     MallocState.next := next;
     MallocState.unsorted_bin :=
       BinEntry.mk BinEntry.UnsortedBinEntry (address + 0x70) (address + 0x60)
         (address + 0x60) 0;
     MallocState.small_bins := [];
     MallocState.large_bins := [] |}.

Definition two_ring : gmap Z MallocState.t :=
  {[ 0x6000 := arena 0x6000 0x9000; 0x9000 := arena 0x9000 0x6000 ]}.

Definition self_ring : gmap Z MallocState.t :=
  {[ 0x6000 := arena 0x6000 0x6000 ]}.

Definition chunk_of_size (address size : Z) : MallocChunk.t :=
  {| MallocChunk.address := address;
     MallocChunk.prev_size := 0;
     MallocChunk.raw_size := size + 1;
     MallocChunk.size := size;
     MallocChunk.prev_in_use := true;
     MallocChunk.mmapped := false;
     MallocChunk.non_main_arena := false;
     MallocChunk.fd := 0;
     MallocChunk.bk := 0;
     MallocChunk.fd_nextsize := 0;
     MallocChunk.bk_nextsize := 0;
     MallocChunk.fd_demangled := 0 |}.

(** A 64-bit target with the given libc version and arenas, whose heaps
    all start with a chunk of size [first_size]. *)
Definition target (libc_version : list Z) (arenas : gmap Z MallocState.t)
    (first_size : Z) : Collaborators.t :=
  {| Collaborators.process_informer :=
       {| ProcessInformer.main_arena_address := 0x6000;
          ProcessInformer.pointer_size := 8;
          ProcessInformer.libc_version := libc_version |};
     Collaborators.malloc_state_parser := MallocStateParser.of_arenas arenas;
     Collaborators.malloc_chunk_parser := MallocChunkParser.of_memory 8 bins_words;
     Collaborators.heap_parser :=
       {| HeapParser.parse_from_malloc_state := fun _ =>
            Ok {| Heap.chunks := [chunk_of_size 0x10000 first_size;
                                  chunk_of_size (0x10000 + first_size) 0x20];
                  Heap.top := None |} |};
     Collaborators.enabled_tcache_parse := fun _ => Ok (Tcaches.mk []) |}.

(** The explorer [__init__] builds for a target, when it builds one. *)
Definition explorer (c : Collaborators.t) : option HeapExplorer.t :=
  match HeapExplorer.__init__ c with
  | (_, Ok self) => Some self
  | (_, Raise _) => None
  end.
End Fixtures.

(** * The rest of bin.py and of heap_explorer.py *)

(** ** Python's formatting of integers and joining of strings *)

Module PyFormat.
(** [str(z)], which is also ["{}".format(z)]. *)
Definition str_int (z : Z) : string :=
  DecimalString.NilZero.string_of_int (Z.to_int z).

(** ["{:#x}".format(z)]: lower-case hexadecimal digits after [0x], the
    sign in front. *)
Definition hex_alt (z : Z) : string :=
  match z with
  | 0 => "0x0"
  | Zpos p => "0x" +:+ HexadecimalString.NilZero.string_of_uint (Pos.to_hex_uint p)
  | Zneg p => "-0x" +:+ HexadecimalString.NilZero.string_of_uint (Pos.to_hex_uint p)
  end.

Definition newline : string := String (Ascii.ascii_of_nat 10) EmptyString.

(** [sep.join(l)]. *)
Definition join (sep : string) (l : list string) : string := String.concat sep l.

(** The truth value of a string in an [if]. *)
Definition truthy (s : string) : bool :=
  match s with
  | EmptyString => false
  | String _ _ => true
  end.
End PyFormat.

(** ** bin.py: [Bin.__str__] and the [Bins] sequences *)

Module BinStr.
Section with_methods.
(** [self._name()], the name of the class of the bin, and
    [chunk.format_flags_as_str()], a method of the chunks: both belong to
    classes that are not among the sources. *)
Variable _name : Bin.t -> string.
Variable format_flags_as_str : MallocChunk.t -> string.

(** The [for] loop of [Bin.__str__] over the chunks: it appends to [msg]
    and moves [next_address] on. *)
Fixpoint chunks_loop (safe_link : bool) (chunks : list MallocChunk.t)
    (msg : list string) (next_address : Z) : list string * Z :=
  match chunks with
  | [] => (msg, next_address)
  | chunk :: chunks' =>
      let flags := format_flags_as_str chunk in
      let msg := msg ++ [" => Chunk(" +:+ PyFormat.hex_alt next_address +:+ " " +:+
                         PyFormat.hex_alt (MallocChunk.size chunk)] in
      let msg := if PyFormat.truthy flags then msg ++ [" " +:+ flags] else msg in
      let msg := msg ++ [")"] in
      let next_address :=
        if safe_link then MallocChunk.fd_demangled chunk else MallocChunk.fd chunk in
      chunks_loop safe_link chunks' msg next_address
  end.

Definition __str__ (self : Bin.t) : string :=
  let msg := [_name self] in
  let msg :=
    if negb (Bin.chunks_size self =? 0)
    then msg ++ [" " +:+ PyFormat.hex_alt (Bin.chunks_size self)]
    else msg in
  let msg :=
    msg ++ [" (" +:+ PyFormat.str_int (Z.of_nat (length (Bin.malloc_chunks self))) +:+ ")"] in
  let next_address := Bin.fd self in
  let '(msg, next_address) :=
    chunks_loop (Bin._safe_link self) (Bin.malloc_chunks self) msg next_address in
  let msg := msg ++ [" => " +:+ PyFormat.hex_alt next_address] in
  PyFormat.join "" msg.
End with_methods.
End BinStr.

Module Bins.
(** [class Bins] of bin.py. *)
Record t : Type := mk { _bins : list Bin.t }.

Definition bins (self : t) : list Bin.t := _bins self.
Definition __getitem__ (self : t) (item : Z) : result Bin.t :=
  list_getitem (_bins self) item.
Definition __len__ (self : t) : Z := Z.of_nat (length (_bins self)).
Definition __iter__ (self : t) : list Bin.t := _bins self.
Definition _start_index (self : t) : Z := 0.

Definition no_chunks_found : string := "    [-] No chunks found".

(** The line [summary] appends for the bin at position [i]. *)
Definition summary_line (start_index i : Z) (bin_ : Bin.t) : string :=
  "    [" +:+ PyFormat.str_int (start_index + i) +:+ "] " +:+
  PyFormat.hex_alt (Bin.chunks_size bin_) +:+
  " (" +:+ PyFormat.str_int (Bin.__len__ bin_) +:+ ")".

(** The [for] loop of [summary] over [enumerate(self.bins)], from
    position [i] on. *)
Fixpoint summary_loop (start_index i : Z) (bins : list Bin.t) (bins_str : list string)
    : list string :=
  match bins with
  | [] => bins_str
  | bin_ :: bins' =>
      let bins_str :=
        if 0 <? Bin.__len__ bin_
        then bins_str ++ [summary_line start_index i bin_]
        else bins_str in
      summary_loop start_index (i + 1) bins' bins_str
  end.

Definition summary (self : t) (start_index : Z) : string :=
  let bins_str := summary_loop start_index 0 (bins self) [] in
  match bins_str with
  | _ :: _ => PyFormat.join PyFormat.newline bins_str
  | [] => no_chunks_found
  end.

Section with_str.
(** [str(bin_)], see [BinStr.__str__]. *)
Variable bin_str : Bin.t -> string.

Definition format_line (start_index i : Z) (bin_ : Bin.t) : string :=
  "[" +:+ PyFormat.str_int (i + start_index) +:+ "] " +:+ bin_str bin_.

Fixpoint format_loop (start_index i : Z) (bins : list Bin.t) (bins_str : list string)
    : list string :=
  match bins with
  | [] => bins_str
  | bin_ :: bins' =>
      let bins_str :=
        if 0 <? Bin.__len__ bin_
        then bins_str ++ [format_line start_index i bin_]
        else bins_str in
      format_loop start_index (i + 1) bins' bins_str
  end.

Definition _format_bins (self : t) (start_index : Z) : string :=
  let bins_str := format_loop start_index 0 (bins self) [] in
  match bins_str with
  | _ :: _ => PyFormat.join PyFormat.newline bins_str
  | [] => no_chunks_found
  end.
End with_str.
End Bins.

(** ** heap_explorer.py: the accessors of heaps and bins *)

Module Accessors.
(** Sequencing with a computation that needs fuel. *)
Definition bind_fuel {A B} (m : M A) (k : A -> option (M B)) : option (M B) :=
  match m with
  | (tr, Ok a) =>
      match k a with
      | None => None
      | Some (tr', r) => Some (tr ++ tr', r)
      end
  | (tr, Raise e) => Some (tr, Raise e)
  end.

(** A [for] loop that appends [f x] to a list for every [x], where [f]
    needs fuel. *)
Fixpoint for_each_fuel {A B} (f : A -> option (M B)) (xs : list A) (acc : list B)
    : option (M (list B)) :=
  match xs with
  | [] => Some (ret acc)
  | x :: xs' =>
      match f x with
      | None => None
      | Some (tr, Ok y) =>
          match for_each_fuel f xs' (acc ++ [y]) with
          | None => None
          | Some (tr', r) => Some (tr ++ tr', r)
          end
      | Some (tr, Raise e) => Some (tr, Raise e)
      end
  end.

Definition parse_heap (self : HeapExplorer.t) (malloc_state : MallocState.t) : M Heap.t :=
  call (ParseHeap malloc_state)
       (HeapParser.parse_from_malloc_state (HeapExplorer._heap_parser self) malloc_state).

Definition all_arenas_heaps (self : HeapExplorer.t) : M (list Heap.t) :=
  let* malloc_states := HeapExplorer.all_arenas_malloc_states self in
  for_each (parse_heap self) malloc_states [].

Definition unsorted_bin (fuel : nat) (self : HeapExplorer.t) (arena_index : Z)
    : option (M Bin.t) :=
  bind_fuel (HeapExplorer.malloc_state self arena_index)
    (BinParser.parse_unsorted_bin_from_malloc_state fuel (HeapExplorer._bin_parser self)).

Definition all_arenas_unsorted_bins (fuel : nat) (self : HeapExplorer.t)
    : option (M (list Bin.t)) :=
  bind_fuel (HeapExplorer.all_arenas_malloc_states self) (fun malloc_states =>
    for_each_fuel
      (BinParser.parse_unsorted_bin_from_malloc_state fuel (HeapExplorer._bin_parser self))
      malloc_states []).

Definition small_bins (fuel : nat) (self : HeapExplorer.t) (arena_index : Z)
    : option (M (list Bin.t)) :=
  bind_fuel (HeapExplorer.malloc_state self arena_index)
    (BinParser.parse_small_bins_from_malloc_state fuel (HeapExplorer._bin_parser self)).

Definition all_arenas_small_bins (fuel : nat) (self : HeapExplorer.t)
    : option (M (list (list Bin.t))) :=
  bind_fuel (HeapExplorer.all_arenas_malloc_states self) (fun malloc_states =>
    for_each_fuel
      (BinParser.parse_small_bins_from_malloc_state fuel (HeapExplorer._bin_parser self))
      malloc_states []).

Definition large_bins (fuel : nat) (self : HeapExplorer.t) (arena_index : Z)
    : option (M (list Bin.t)) :=
  bind_fuel (HeapExplorer.malloc_state self arena_index)
    (BinParser.parse_large_bins_from_malloc_state fuel (HeapExplorer._bin_parser self)).

Definition all_arenas_large_bins (fuel : nat) (self : HeapExplorer.t)
    : option (M (list (list Bin.t))) :=
  bind_fuel (HeapExplorer.all_arenas_malloc_states self) (fun malloc_states =>
    for_each_fuel
      (BinParser.parse_large_bins_from_malloc_state fuel (HeapExplorer._bin_parser self))
      malloc_states []).
End Accessors.

(** ** Changing one pointer of a chunk, and the chunks of a bin *)

(** The chunk [c] with [v] as its raw [fd]. *)
Definition set_fd (v : Z) (c : MallocChunk.t) : MallocChunk.t :=
  {| MallocChunk.address := MallocChunk.address c;
     MallocChunk.prev_size := MallocChunk.prev_size c;
     MallocChunk.raw_size := MallocChunk.raw_size c;
     MallocChunk.size := MallocChunk.size c;
     MallocChunk.prev_in_use := MallocChunk.prev_in_use c;
     MallocChunk.mmapped := MallocChunk.mmapped c;
     MallocChunk.non_main_arena := MallocChunk.non_main_arena c;
     MallocChunk.fd := v;
     MallocChunk.bk := MallocChunk.bk c;
     MallocChunk.fd_nextsize := MallocChunk.fd_nextsize c;
     MallocChunk.bk_nextsize := MallocChunk.bk_nextsize c;
     MallocChunk.fd_demangled := MallocChunk.fd_demangled c |}.

(** The bin [b] with [chunks] as its chunks. *)
Definition with_chunks (b : Bin.t) (chunks : list MallocChunk.t) : Bin.t :=
  {| Bin.class := Bin.class b;
     Bin._bin_entry := Bin._bin_entry b;
     Bin._malloc_chunks := chunks;
     Bin._safe_link := Bin._safe_link b |}.

(** ** More concrete inputs *)

Module Cases.
(** A chunk parser that fails at [0xC000] with an exception that is not
    a read error, and with a read error everywhere else. *)
Definition fussy_parser : MallocChunkParser.t :=
  {| MallocChunkParser.pointer_size := 8;
     MallocChunkParser.parse_from_address := fun a =>
       if a =? 0xC000 then Raise OtherError else Raise OSError |}.

(** A chunk at [0xC000] whose [fd] points back at itself. *)
Definition self_loop : gmap Z Z :=
  Fixtures.words_at 0xC000 8 [0; 0x91; 0xC000; 0xC000; 0; 0] ∪ Fixtures.bins_words.

Definition small_entry (address fd : Z) : BinEntry.t :=
  {| BinEntry.class := BinEntry.SmallBinEntry;
     BinEntry.address := address;
     BinEntry.fd := fd;
     BinEntry.bk := fd;
     BinEntry.chunks_size := 0x90 |}.

(** A malloc state with two small bins: the first holds the chunk at
    [0xC000], the second is empty. *)
Definition two_small_bins : MallocState.t :=
  {| MallocState.address := 0x6FA0;
     MallocState.top := 0;
     MallocState.next := 0x6FA0;
     MallocState.unsorted_bin := Fixtures.unsorted_entry;
     MallocState.small_bins := [small_entry 0x7010 0xC000; small_entry 0x7020 0x7010];
     MallocState.large_bins := [] |}.
(** Three small entries for [Cases.fussy_parser]: an empty bin, a bin
    whose first chunk is at [0xC000], and a bin whose first chunk is at
    [0xD000]. *)
Definition fussy_small_bins : MallocState.t :=
  {| MallocState.address := 0x6FA0;
     MallocState.top := 0;
     MallocState.next := 0x6FA0;
     MallocState.unsorted_bin := Fixtures.unsorted_entry;
     MallocState.small_bins :=
       [small_entry 0x7020 0x7010] ++
       small_entry 0x7010 0xC000 :: [small_entry 0x7030 0xD000];
     MallocState.large_bins := [] |}.

(** A target with the two arenas of [Fixtures.two_ring] whose heap parser
    fails with a read error on the second arena. *)
Definition second_heap_unreadable : Collaborators.t :=
  {| Collaborators.process_informer :=
       Collaborators.process_informer (Fixtures.target [2; 31] Fixtures.two_ring 0x250);
     Collaborators.malloc_state_parser := MallocStateParser.of_arenas Fixtures.two_ring;
     Collaborators.malloc_chunk_parser := MallocChunkParser.of_memory 8 Fixtures.bins_words;
     Collaborators.heap_parser :=
       {| HeapParser.parse_from_malloc_state := fun ms =>
            if MallocState.address ms =? 0x6000
            then Ok {| Heap.chunks := [Fixtures.chunk_of_size 0x10000 0x250];
                       Heap.top := None |}
            else Raise OSError |};
     Collaborators.enabled_tcache_parse := fun _ => Ok (Tcaches.mk []) |}.

(** A target of libc 2.31 whose main heap has no chunk, and one with no
    readable arena at all. *)
Definition empty_heap : Collaborators.t :=
  {| Collaborators.process_informer :=
       Collaborators.process_informer (Fixtures.target [2; 31] Fixtures.two_ring 0x250);
     Collaborators.malloc_state_parser := MallocStateParser.of_arenas Fixtures.two_ring;
     Collaborators.malloc_chunk_parser := MallocChunkParser.of_memory 8 Fixtures.bins_words;
     Collaborators.heap_parser :=
       {| HeapParser.parse_from_malloc_state := fun _ =>
            Ok {| Heap.chunks := []; Heap.top := None |} |};
     Collaborators.enabled_tcache_parse := fun _ => Ok (Tcaches.mk []) |}.

Definition no_arena : Collaborators.t := Fixtures.target [2; 31] ∅ 0x250.

(** A name per class of bin and a rendering of the flags of a chunk, as
    the classes that are not among the sources could define them. *)
Definition class_name (b : Bin.t) : string :=
  match Bin.class b with
  | Bin.UnsortedBin => "Unsorted Bin"
  | Bin.SmallBin => "Small Bin"
  | Bin.LargeBin => "Large Bin"
  end.

Definition flags_str (c : MallocChunk.t) : string :=
  if MallocChunk.prev_in_use c then "PREV_IN_USE" else "".

(** An unsorted bin of two chunks, a small bin without chunks. *)
Definition two_chunk_bin : Bin.t :=
  BinFactory.create Fixtures.unsorted_entry
    [Fixtures.chunk_C000 0xD000 0x7000; Fixtures.chunk_of_size 0xD000 0x20].

End Cases.

(** * Proofs *)

Local Abbreviation parse_of self :=
  (MallocChunkParser.parse_from_address (BinParser._malloc_chunk_parser self)).

(** ** The monad *)

Lemma bind_ret_inv {A B} (m : M A) (f : A -> B) tr b :
  (let* a := m in ret (f a)) = (tr, Ok b) ->
  exists a, m = (tr, Ok a) /\ b = f a.
Proof.
  destruct m as [tr0 [a|e]]; simpl; intros H; inversion H; subst.
  exists a. by rewrite app_nil_r.
Qed.

Lemma parse_calls_map (l : list Z) : parse_calls (map ParseChunk l) = l.
Proof. induction l as [|a l IH]; [done|]. unfold parse_calls in *. simpl. by f_equal. Qed.

(** ** What a trail says about the addresses and the chunks *)

Section trails.
Variable parse : Z -> result MallocChunk.t.

Lemma trail_prefix current addresses chunks :
  trail parse current addresses chunks ->
  addresses `prefix_of` current :: map MallocChunk.fd chunks.
Proof.
  induction 1 as [current|current e _|current chunk addresses chunks _ _ IH]; simpl.
  - apply prefix_nil.
  - done.
  - by apply prefix_cons.
Qed.

Lemma trail_parsed current addresses chunks :
  trail parse current addresses chunks ->
  Forall2 (fun a c => parse a = Ok c) (take (length chunks) addresses) chunks.
Proof.
  induction 1; simpl; constructor; auto.
Qed.

Lemma trail_length current addresses chunks :
  trail parse current addresses chunks ->
  (length chunks <= length addresses <= S (length chunks))%nat.
Proof. induction 1; simpl; lia. Qed.
End trails.

(** ** The loop of the bin walk *)

Section walk_facts.
Variable self : BinParser.t.

Lemma walk_sound fuel : forall tr addresses chunks current tr' r,
  BinParser.walk fuel self tr addresses chunks current = Some (tr', r) ->
  exists new_addresses new_chunks,
    trail (parse_of self) current new_addresses new_chunks /\
    tr' = tr ++ map ParseChunk new_addresses /\
    NoDup new_addresses /\
    (forall a, a ∈ new_addresses -> a ∉ addresses) /\
    match r with
    | Ok st => st = (addresses ++ new_addresses, chunks ++ new_chunks)
    | Raise e =>
        e <> OSError /\
        exists a, last new_addresses = Some a /\ parse_of self a = Raise e
    end.
Proof.
  induction fuel as [|fuel IH]; intros tr addresses chunks current tr' r H;
    simpl in H; [done|].
  case_bool_decide as Hin.
  - inversion H; subst. exists [], []. rewrite !app_nil_r.
    repeat split; [constructor|constructor|]. intros a Ha. by apply elem_of_nil in Ha.
  - destruct (parse_of self current) as [chunk|e] eqn:Hparse.
    + apply IH in H as (na & nc & Htrail & -> & Hnd & Hfresh & Hr).
      exists (current :: na), (chunk :: nc). split; [by constructor|].
      split; [by rewrite <- app_assoc|].
      split.
      { constructor; [|done]. intros Hc. apply (Hfresh _ Hc). set_solver. }
      split.
      { intros a [->|Ha]%elem_of_cons; [done|].
        intros Ha'. apply (Hfresh _ Ha). set_solver. }
      destruct r as [st|e].
      * by rewrite Hr, <- !app_assoc.
      * destruct Hr as (Hne & a & Hlast & Ha). split; [done|]. exists a.
        split; [|done]. destruct na; [done|]. done.
    + exists [current], []. rewrite app_nil_r.
      assert (Hfresh : forall a, a ∈ [current] -> a ∉ addresses).
      { intros a ->%list_elem_of_singleton. done. }
      assert (Htrail : trail (parse_of self) current [current] []) by by econstructor.
      assert (Hnd : NoDup [current]) by apply NoDup_singleton.
      destruct e; inversion H; subst; repeat split; try done;
        exists current; done.
Qed.

Lemma walk_mono fuel : forall fuel' tr addresses chunks current r,
  BinParser.walk fuel self tr addresses chunks current = Some r ->
  (fuel <= fuel')%nat ->
  BinParser.walk fuel' self tr addresses chunks current = Some r.
Proof.
  induction fuel as [|fuel IH]; intros fuel' tr addresses chunks current r H Hle;
    simpl in H; [done|].
  destruct fuel' as [|fuel']; [lia|]. simpl.
  case_bool_decide; [done|].
  destruct (parse_of self current) as [chunk|e]; [|done].
  apply IH; [done|lia].
Qed.

(** The loop ends: each further iteration parses a chunk at an address
    of [D] that it had not visited. *)
Lemma walk_terminates (D : gset Z) :
  (forall a c, parse_of self a = Ok c -> a ∈ D) ->
  forall fuel tr addresses chunks current,
    (size (D ∖ list_to_set addresses) < fuel)%nat ->
    is_Some (BinParser.walk fuel self tr addresses chunks current).
Proof.
  intros HD. induction fuel as [|fuel IH]; intros tr addresses chunks current Hlt;
    [lia|]. simpl.
  case_bool_decide as Hin; [by eexists|].
  destruct (parse_of self current) as [chunk|e] eqn:Hparse;
    [|destruct e; by eexists].
  apply IH. apply HD in Hparse.
  assert (D ∖ list_to_set (addresses ++ [current]) ⊂ D ∖ list_to_set addresses).
  { rewrite list_to_set_app_L. simpl. apply strict_spec_alt. split; [set_solver|].
    intros Heq. assert (Hc : current ∈ D ∖ list_to_set (C:=gset Z) addresses)
      by set_solver.
    rewrite <- Heq in Hc. set_solver. }
  apply subset_size in H. lia.
Qed.

(** A chain of [visited] addresses that parse, followed by one whose
    read fails. *)
Lemma walk_read_failure : forall visited cs failing current fuel tr addresses chunks,
  visited ++ [failing] = current :: map MallocChunk.fd cs ->
  Forall2 (fun a c => parse_of self a = Ok c) visited cs ->
  NoDup (visited ++ [failing]) ->
  (forall a, a ∈ visited ++ [failing] -> a ∉ addresses) ->
  parse_of self failing = Raise OSError ->
  (length visited < fuel)%nat ->
  BinParser.walk fuel self tr addresses chunks current =
    Some (tr ++ map ParseChunk (visited ++ [failing]),
          Ok (addresses ++ visited ++ [failing], chunks ++ cs)).
Proof.
  induction visited as [|v visited IH];
    intros cs failing current fuel tr addresses chunks Hchain Hparsed Hnd Hfresh Hfail Hfuel.
  - apply Forall2_nil_inv_l in Hparsed as ->. simpl in Hchain.
    injection Hchain as ->. destruct fuel as [|fuel]; [simpl in Hfuel; lia|]. simpl.
    rewrite bool_decide_eq_false_2 by (apply Hfresh; set_solver).
    rewrite Hfail. by rewrite app_nil_r.
  - apply Forall2_cons_inv_l in Hparsed as (c & cs' & Hv & Hparsed & ->).
    simpl in Hchain. injection Hchain as -> Hchain.
    destruct fuel as [|fuel]; [simpl in Hfuel; lia|]. simpl.
    rewrite bool_decide_eq_false_2 by (apply Hfresh; set_solver).
    rewrite Hv. simpl in Hnd. apply NoDup_cons in Hnd as [Hcur Hnd].
    rewrite (IH cs' failing (MallocChunk.fd c) fuel); try done.
    + by rewrite <- !app_assoc.
    + intros a Ha Ha'. apply elem_of_app in Ha' as [Ha'|Ha'].
      * apply (Hfresh a); [set_solver|done].
      * apply list_elem_of_singleton in Ha' as ->. done.
    + simpl in Hfuel. lia.
Qed.
End walk_facts.

(** ** From the loop to [_parse_from_bin_entry] *)

Lemma parse_from_bin_entry_inv fuel self bin_entry tr b :
  BinParser._parse_from_bin_entry fuel self bin_entry = Some (tr, Ok b) ->
  exists addresses chunks,
    BinParser.walk_from_bin_entry fuel self bin_entry = Some (tr, Ok (addresses, chunks)) /\
    b = BinFactory.create bin_entry chunks.
Proof.
  unfold BinParser._parse_from_bin_entry.
  destruct (BinParser.walk_from_bin_entry fuel self bin_entry) as [m|]; [|done].
  intros [= H]. apply bind_ret_inv in H as ([addresses chunks] & -> & ->).
  by exists addresses, chunks.
Qed.

Lemma parse_from_bin_entry_of_walk fuel self bin_entry tr addresses chunks :
  BinParser.walk_from_bin_entry fuel self bin_entry = Some (tr, Ok (addresses, chunks)) ->
  BinParser._parse_from_bin_entry fuel self bin_entry =
    Some (tr, Ok (BinFactory.create bin_entry chunks)).
Proof.
  unfold BinParser._parse_from_bin_entry. intros ->. simpl. by rewrite app_nil_r.
Qed.

Lemma parse_from_bin_entry_mono fuel fuel' self bin_entry r :
  BinParser._parse_from_bin_entry fuel self bin_entry = Some r ->
  (fuel <= fuel')%nat ->
  BinParser._parse_from_bin_entry fuel' self bin_entry = Some r.
Proof.
  unfold BinParser._parse_from_bin_entry, BinParser.walk_from_bin_entry.
  destruct (BinParser.walk fuel self _ _ _ _) as [m|] eqn:Hw; [|done].
  intros H Hle. by rewrite (walk_mono self fuel fuel' _ _ _ _ m Hw Hle).
Qed.

(** Two runs that both end give the same result, whatever their fuel. *)
Lemma parse_from_bin_entry_agree fuel fuel' self bin_entry r r' :
  BinParser._parse_from_bin_entry fuel self bin_entry = Some r ->
  BinParser._parse_from_bin_entry fuel' self bin_entry = Some r' ->
  r = r'.
Proof.
  intros H H'.
  apply (parse_from_bin_entry_mono _ (Nat.max fuel fuel')) in H; [|lia].
  apply (parse_from_bin_entry_mono _ (Nat.max fuel fuel')) in H'; [|lia].
  congruence.
Qed.

(** What every bin that is returned satisfies: its chunks and the calls
    of the trace form a trail from [bin_entry.fd], and the addresses of
    the calls are new and differ from the head of the bin. *)
Lemma parse_from_bin_entry_sound fuel self bin_entry tr b :
  BinParser._parse_from_bin_entry fuel self bin_entry = Some (tr, Ok b) ->
  exists addresses,
    tr = map ParseChunk addresses /\
    trail (parse_of self) (BinEntry.fd bin_entry) addresses (Bin.chunks b) /\
    NoDup addresses /\
    (BinParser.base_bin_address self bin_entry ∉ addresses) /\
    b = BinFactory.create bin_entry (Bin.chunks b).
Proof.
  intros (addresses & chunks & Hw & ->)%parse_from_bin_entry_inv.
  apply walk_sound in Hw as (na & nc & Htrail & -> & Hnd & Hfresh & [= -> ->]).
  exists na. simpl. repeat split; try done.
  intros Hin. apply (Hfresh _ Hin). set_solver.
Qed.

(** ** The chunk parser over a memory image *)

Lemma parse_readable P words a c :
  MallocChunkParser.parse P words a = Ok c -> a ∈ dom words.
Proof.
  unfold MallocChunkParser.parse. destruct (words !! a) eqn:Ha; [|done].
  intros _. apply elem_of_dom. by eexists.
Qed.

Lemma parse_raises_OSError P words a e :
  MallocChunkParser.parse P words a = Raise e -> e = OSError.
Proof.
  unfold MallocChunkParser.parse.
  repeat (match goal with |- context [match ?o with Some _ => _ | None => _ end] =>
            destruct o end); congruence.
Qed.

(** ** Termination of [_parse_from_bin_entry] *)

(** When the chunk parser succeeds at the addresses of a finite set [D]
    only, any fuel above the size of [D] ends the walk, with one result. *)
Lemma parse_from_bin_entry_terminates self (D : gset Z) bin_entry :
  (forall a c, parse_of self a = Ok c -> a ∈ D) ->
  exists r, forall fuel, (size D < fuel)%nat ->
    BinParser._parse_from_bin_entry fuel self bin_entry = Some r.
Proof.
  intros HD.
  destruct (walk_terminates self D HD (S (size D)) []
              [BinParser.base_bin_address self bin_entry] []
              (BinEntry.fd bin_entry)) as [m Hw].
  { pose proof (subseteq_size (D ∖ list_to_set
        [BinParser.base_bin_address self bin_entry]) D) as Hs.
    apply Nat.lt_succ_r, Hs. set_solver. }
  eexists. intros fuel Hfuel.
  apply (parse_from_bin_entry_mono (S (size D))); [|lia].
  unfold BinParser._parse_from_bin_entry, BinParser.walk_from_bin_entry.
  rewrite Hw. reflexivity.
Qed.

(** The trace of a walk that ends, whatever its result: chunk parses
    only, at pairwise distinct addresses; an exception that comes out of
    the walk is not [OSError] and was raised by the parser. *)
Lemma parse_from_bin_entry_trace fuel self bin_entry tr r :
  BinParser._parse_from_bin_entry fuel self bin_entry = Some (tr, r) ->
  tr = map ParseChunk (parse_calls tr) /\
  NoDup (parse_calls tr) /\
  (forall e, r = Raise e -> e <> OSError /\ exists a, parse_of self a = Raise e).
Proof.
  unfold BinParser._parse_from_bin_entry, BinParser.walk_from_bin_entry.
  destruct (BinParser.walk fuel self _ _ _ _) as [[tr0 r0]|] eqn:Hw; [|done].
  apply walk_sound in Hw as (na & nc & _ & -> & Hnd & _ & Hr). simpl in *.
  destruct r0 as [st|e0]; simpl; intros [= <- <-].
  - rewrite app_nil_r, parse_calls_map. done.
  - rewrite parse_calls_map. split; [done|]. split; [done|].
    intros e1 [= <-]. destruct Hr as (Hne & a & _ & Ha). eauto.
Qed.

(** What C2 says of a returned bin: the parsed addresses are among the
    addresses the walk encounters, so there are at most as many parses as
    there are distinct such addresses. *)
Lemma parse_from_bin_entry_bounded fuel self bin_entry tr b :
  BinParser._parse_from_bin_entry fuel self bin_entry = Some (tr, Ok b) ->
  parse_calls tr ⊆ BinEntry.fd bin_entry :: map MallocChunk.fd (Bin.chunks b) /\
  (length tr <=
   size (list_to_set (C:=gset Z)
           (BinEntry.fd bin_entry :: map MallocChunk.fd (Bin.chunks b))))%nat.
Proof.
  intros (called & -> & Htrail & Hnd & _ & _)%parse_from_bin_entry_sound.
  rewrite parse_calls_map. apply trail_prefix in Htrail.
  assert (Hsub : called ⊆ BinEntry.fd bin_entry :: map MallocChunk.fd (Bin.chunks b)).
  { destruct Htrail as [k ->]. set_solver. }
  split; [done|].
  rewrite length_map, <- (size_list_to_set (C:=gset Z) called) by done.
  apply subseteq_size. set_solver.
Qed.

(** ** The walk does not depend on [fd_demangled] *)

Lemma walk_remangled g p fuel : forall tr addresses chunks current,
  BinParser.walk fuel (BinParser.__init__ (remangled_parser g p)) tr addresses
    (map (remangle g) chunks) current =
  remangle_state g <$>
    BinParser.walk fuel (BinParser.__init__ p) tr addresses chunks current.
Proof.
  induction fuel as [|fuel IH]; intros tr addresses chunks current; simpl; [done|].
  case_bool_decide; [done|].
  destruct (MallocChunkParser.parse_from_address p current) as [chunk|e]; simpl.
  - rewrite <- IH. by rewrite map_app.
  - by destruct e.
Qed.

Lemma parse_entries_safe_link fuel self : forall entries tr bins tr' bs,
  BinParser.parse_entries fuel self entries tr bins = Some (tr', Ok bs) ->
  Forall (fun b => Bin._safe_link b = false) bins ->
  Forall (fun b => Bin._safe_link b = false) bs.
Proof.
  induction entries as [|entry entries IH]; intros tr bins tr' bs H Hbins; simpl in H.
  - by inversion H; subst.
  - destruct (BinParser._parse_from_bin_entry fuel self entry) as [[tr1 [b|e]]|] eqn:He;
      [|done|done].
    apply IH in H; [done|]. apply Forall_app. split; [done|].
    apply parse_from_bin_entry_inv in He as (? & ? & _ & ->). by constructor.
Qed.

Lemma parse_from_bin_entry_remangled g p fuel bin_entry :
  BinParser._parse_from_bin_entry fuel (BinParser.__init__ (remangled_parser g p)) bin_entry =
  remangle_bin g <$> BinParser._parse_from_bin_entry fuel (BinParser.__init__ p) bin_entry.
Proof.
  unfold BinParser._parse_from_bin_entry, BinParser.walk_from_bin_entry.
  change (@nil MallocChunk.t) with (map (remangle g) []) at 1.
  rewrite walk_remangled. simpl.
  destruct (BinParser.walk fuel (BinParser.__init__ p) _ _ _ _) as [[tr [[a cs]|e]]|];
    simpl; done.
Qed.

(** * The bin walk: claims *)

(** C1 (amended). For a walk over a doubly-linked bin where
    [bin_entry.fd = 0xC000], the chunk parsed at [0xC000] has [fd] equal
    to the head of the bin [bin_entry.address - 2P], and that head is not
    [0xC000] itself, the parsed bin contains exactly one chunk, the one at
    [0xC000], and the only parse is the one at [0xC000]. *)
Theorem C1_single_chunk_bin (self : BinParser.t) (bin_entry : BinEntry.t)
    (chunk : MallocChunk.t) (fuel : nat) :
  BinEntry.fd bin_entry = 0xC000 ->
  parse_of self 0xC000 = Ok chunk ->
  MallocChunk.fd chunk = BinEntry.address bin_entry - 2 * BinParser._pointer_size self ->
  BinEntry.address bin_entry - 2 * BinParser._pointer_size self <> 0xC000 ->
  (2 <= fuel)%nat ->
  exists b,
    BinParser._parse_from_bin_entry fuel self bin_entry = Some ([ParseChunk 0xC000], Ok b) /\
    Bin.chunks b = [chunk].
Proof.
  intros Hfd Hparse Hchunk Hne Hfuel.
  exists (BinFactory.create bin_entry [chunk]). split; [|reflexivity].
  apply (parse_from_bin_entry_mono 2); [|done].
  apply (parse_from_bin_entry_of_walk _ _ _ _
           [BinParser.base_bin_address self bin_entry; 0xC000]).
  unfold BinParser.walk_from_bin_entry, BinParser.base_bin_address. simpl.
  rewrite Hfd. rewrite bool_decide_eq_false_2.
  - rewrite Hparse, Hchunk. rewrite bool_decide_eq_true_2; [done|]. set_solver by lia.
  - intros Hin%list_elem_of_singleton. lia.
Qed.

Lemma C1_single_chunk_bin_witness :
  exists b,
    BinParser._parse_from_bin_entry 2 (Fixtures.bin_parser Fixtures.fd_is_head)
      Fixtures.unsorted_entry = Some ([ParseChunk 0xC000], Ok b) /\
    Bin.chunks b = [Fixtures.chunk_C000 0x7000 0x7000].
Proof.
  apply (C1_single_chunk_bin (Fixtures.bin_parser Fixtures.fd_is_head)
           Fixtures.unsorted_entry (Fixtures.chunk_C000 0x7000 0x7000) 2).
  - reflexivity.
  - vm_compute. reflexivity.
  - reflexivity.
  - vm_compute. discriminate.
  - lia.
Defined.

(** C1 as stated fails: with the chunk at [0xC000] holding
    [fd = bin_entry.address] (here [0x7010], the head being [0x7000]), the
    walk goes on to parse a chunk at [0x7010] and the bin has two chunks. *)
Lemma C1_counterexample :
  BinEntry.fd Fixtures.unsorted_entry = 0xC000 /\
  parse_of (Fixtures.bin_parser Fixtures.fd_is_entry_address) 0xC000 =
    Ok (Fixtures.chunk_C000 0x7010 0x7010) /\
  MallocChunk.fd (Fixtures.chunk_C000 0x7010 0x7010) =
    BinEntry.address Fixtures.unsorted_entry /\
  (exists tr b,
     BinParser._parse_from_bin_entry 3 (Fixtures.bin_parser Fixtures.fd_is_entry_address)
       Fixtures.unsorted_entry = Some (tr, Ok b)) /\
  (forall fuel tr b,
     BinParser._parse_from_bin_entry fuel (Fixtures.bin_parser Fixtures.fd_is_entry_address)
       Fixtures.unsorted_entry = Some (tr, Ok b) ->
     map MallocChunk.address (Bin.chunks b) = [0xC000; 0x7010] /\
     Bin.chunks b <> [Fixtures.chunk_C000 0x7010 0x7010]).
Proof.
  split; [reflexivity|]. split; [vm_compute; reflexivity|]. split; [reflexivity|].
  assert (Hrun : exists tr b,
     BinParser._parse_from_bin_entry 3 (Fixtures.bin_parser Fixtures.fd_is_entry_address)
       Fixtures.unsorted_entry = Some (tr, Ok b) /\
     map MallocChunk.address (Bin.chunks b) = [0xC000; 0x7010]).
  { eexists _, _. split; vm_compute; reflexivity. }
  destruct Hrun as (tr3 & b3 & Hrun & Haddr). split; [by eauto|].
  intros fuel tr b H.
  pose proof (parse_from_bin_entry_agree _ _ _ _ _ _ H Hrun) as [= -> ->].
  split; [done|]. intros Heq. rewrite Heq in Haddr. discriminate.
Qed.

(** C2. For every bin entry and every memory image the walk of
    [_parse_from_bin_entry] terminates, and the number of chunk parses it
    attempts is at most the number of distinct chunk addresses it
    encounters ([bin_entry.fd] and the [fd] of every parsed chunk): every
    call of the trace is a chunk parse, no address is parsed twice, and
    every parsed address is an encountered one. First for any chunk parser
    that succeeds at the addresses of a finite set [D] only: any fuel above
    the size of [D] gives the same result. Then for the parser of a finite
    memory image, where the result is always a bin. *)
Theorem C2_walk_terminates_bounded :
  (forall (self : BinParser.t) (D : gset Z) (bin_entry : BinEntry.t),
     (forall a c, parse_of self a = Ok c -> a ∈ D) ->
     exists tr r,
       (forall fuel, (size D < fuel)%nat ->
          BinParser._parse_from_bin_entry fuel self bin_entry = Some (tr, r)) /\
       tr = map ParseChunk (parse_calls tr) /\
       NoDup (parse_calls tr) /\
       (forall b, r = Ok b ->
          parse_calls tr ⊆ BinEntry.fd bin_entry :: map MallocChunk.fd (Bin.chunks b) /\
          (length tr <=
           size (list_to_set (C:=gset Z)
                   (BinEntry.fd bin_entry :: map MallocChunk.fd (Bin.chunks b))))%nat)) /\
  (forall (P : Z) (words : gmap Z Z) (bin_entry : BinEntry.t),
     exists tr b,
       (forall fuel, (size words < fuel)%nat ->
          BinParser._parse_from_bin_entry fuel
            (BinParser.__init__ (MallocChunkParser.of_memory P words)) bin_entry =
          Some (tr, Ok b)) /\
       tr = map ParseChunk (parse_calls tr) /\
       NoDup (parse_calls tr) /\
       parse_calls tr ⊆ BinEntry.fd bin_entry :: map MallocChunk.fd (Bin.chunks b) /\
       (length tr <=
        size (list_to_set (C:=gset Z)
                (BinEntry.fd bin_entry :: map MallocChunk.fd (Bin.chunks b))))%nat).
Proof.
  assert (Hgen : forall (self : BinParser.t) (D : gset Z) (bin_entry : BinEntry.t),
     (forall a c, parse_of self a = Ok c -> a ∈ D) ->
     exists tr r,
       (forall fuel, (size D < fuel)%nat ->
          BinParser._parse_from_bin_entry fuel self bin_entry = Some (tr, r)) /\
       (forall e, r = Raise e -> e <> OSError /\ exists a, parse_of self a = Raise e) /\
       tr = map ParseChunk (parse_calls tr) /\
       NoDup (parse_calls tr) /\
       (forall b, r = Ok b ->
          parse_calls tr ⊆ BinEntry.fd bin_entry :: map MallocChunk.fd (Bin.chunks b) /\
          (length tr <=
           size (list_to_set (C:=gset Z)
                   (BinEntry.fd bin_entry :: map MallocChunk.fd (Bin.chunks b))))%nat)).
  { intros self D bin_entry HD.
    destruct (parse_from_bin_entry_terminates self D bin_entry HD) as [[tr r] Hrun].
    exists tr, r. split; [done|].
    pose proof (Hrun _ (Nat.lt_succ_diag_r _)) as Hone.
    destruct (parse_from_bin_entry_trace _ _ _ _ _ Hone) as (Htr & Hnd & Hraise).
    split; [exact Hraise|]. split; [exact Htr|]. split; [exact Hnd|].
    intros b ->. by apply parse_from_bin_entry_bounded in Hone. }
  split.
  - intros self D bin_entry HD.
    destruct (Hgen self D bin_entry HD) as (tr & r & ? & _ & ? & ? & ?).
    by exists tr, r.
  - intros P words bin_entry.
    destruct (Hgen (BinParser.__init__ (MallocChunkParser.of_memory P words))
                (dom words) bin_entry (fun a c H => parse_readable P words a c H))
      as (tr & r & Hrun & Hraise & Htr & Hnd & Hb).
    rewrite size_dom in Hrun. destruct r as [b|e].
    + exists tr, b. destruct (Hb b eq_refl). done.
    + destruct (Hraise e eq_refl) as (Hne & a & Ha).
      apply parse_raises_OSError in Ha. done.
Qed.

Lemma C2_walk_terminates_bounded_witness :
  exists tr r,
    (forall fuel, (size (dom Fixtures.fd_is_entry_address) < fuel)%nat ->
       BinParser._parse_from_bin_entry fuel
         (Fixtures.bin_parser Fixtures.fd_is_entry_address) Fixtures.unsorted_entry =
       Some (tr, r)) /\
    tr = map ParseChunk (parse_calls tr) /\
    NoDup (parse_calls tr) /\
    (forall b, r = Ok b ->
       parse_calls tr ⊆ BinEntry.fd Fixtures.unsorted_entry ::
                          map MallocChunk.fd (Bin.chunks b) /\
       (length tr <=
        size (list_to_set (C:=gset Z)
                (BinEntry.fd Fixtures.unsorted_entry ::
                   map MallocChunk.fd (Bin.chunks b))))%nat).
Proof.
  apply (proj1 C2_walk_terminates_bounded
           (Fixtures.bin_parser Fixtures.fd_is_entry_address)
           (dom Fixtures.fd_is_entry_address) Fixtures.unsorted_entry).
  intros a c. apply parse_readable.
Defined.

(** C3. If the chunks at the first [k-1] visited addresses parse and the
    parse at the [k]-th visited address fails with a read error, then
    [_parse_from_bin_entry] does not raise: it returns a bin whose chunk
    list is exactly those [k-1] chunks, in walk order. The visited
    addresses are [bin_entry.fd] and then the [fd] of each parsed chunk;
    being visited, they are distinct and differ from the head of the bin. *)
Theorem C3_read_failure_returns_prefix (self : BinParser.t) (bin_entry : BinEntry.t)
    (visited : list Z) (parsed : list MallocChunk.t) (failing : Z) (fuel : nat) :
  visited ++ [failing] = BinEntry.fd bin_entry :: map MallocChunk.fd parsed ->
  Forall2 (fun a c => parse_of self a = Ok c) visited parsed ->
  NoDup (BinParser.base_bin_address self bin_entry :: visited ++ [failing]) ->
  parse_of self failing = Raise OSError ->
  (length visited < fuel)%nat ->
  exists b,
    BinParser._parse_from_bin_entry fuel self bin_entry =
      Some (map ParseChunk (visited ++ [failing]), Ok b) /\
    Bin.chunks b = parsed /\
    length (Bin.chunks b) = length visited.
Proof.
  intros Hchain Hparsed Hnd Hfail Hfuel.
  exists (BinFactory.create bin_entry parsed).
  split; [|split; [done|]].
  - apply NoDup_cons in Hnd as [Hbase Hnd].
    eapply parse_from_bin_entry_of_walk. unfold BinParser.walk_from_bin_entry.
    rewrite (walk_read_failure self visited parsed failing); try done.
    intros a Ha ->%list_elem_of_singleton. done.
  - simpl. symmetry. by eapply Forall2_length.
Qed.

Lemma C3_read_failure_returns_prefix_witness :
  exists b,
    BinParser._parse_from_bin_entry 2 (Fixtures.bin_parser Fixtures.fd_unreadable)
      Fixtures.unsorted_entry =
      Some (map ParseChunk ([0xC000] ++ [0xD000]), Ok b) /\
    Bin.chunks b = [Fixtures.chunk_C000 0xD000 0x7000] /\
    length (Bin.chunks b) = length [0xC000].
Proof.
  apply (C3_read_failure_returns_prefix (Fixtures.bin_parser Fixtures.fd_unreadable)
           Fixtures.unsorted_entry [0xC000] [Fixtures.chunk_C000 0xD000 0x7000] 0xD000 2).
  - reflexivity.
  - repeat constructor.
  - vm_compute. repeat constructor; set_solver.
  - vm_compute. reflexivity.
  - simpl. lia.
Defined.

(** C4. For every bin entry with [bin_entry.fd == bin_entry.address - 2P]
    the parsed bin has a zero-length chunk list, and the trace is empty:
    no chunk is parsed and no read is attempted on the chain. *)
Theorem C4_empty_bin (self : BinParser.t) (bin_entry : BinEntry.t) (fuel : nat) :
  BinEntry.fd bin_entry = BinEntry.address bin_entry - 2 * BinParser._pointer_size self ->
  (1 <= fuel)%nat ->
  exists b,
    BinParser._parse_from_bin_entry fuel self bin_entry = Some ([], Ok b) /\
    Bin.chunks b = [] /\
    Bin.__len__ b = 0.
Proof.
  intros Hfd Hfuel. exists (BinFactory.create bin_entry []). split; [|done].
  apply (parse_from_bin_entry_mono 1); [|done].
  apply (parse_from_bin_entry_of_walk _ _ _ _ [BinParser.base_bin_address self bin_entry]).
  unfold BinParser.walk_from_bin_entry, BinParser.base_bin_address. simpl.
  rewrite bool_decide_eq_true_2; [done|]. apply list_elem_of_singleton. lia.
Qed.

Lemma C4_empty_bin_witness :
  exists b,
    BinParser._parse_from_bin_entry 1 (Fixtures.bin_parser Fixtures.bins_words)
      (BinEntry.mk BinEntry.SmallBinEntry 0x7020 0x7010 0x7010 0x20) = Some ([], Ok b) /\
    Bin.chunks b = [] /\
    Bin.__len__ b = 0.
Proof.
  apply (C4_empty_bin (Fixtures.bin_parser Fixtures.bins_words)
           (BinEntry.mk BinEntry.SmallBinEntry 0x7020 0x7010 0x7010 0x20) 1).
  - reflexivity.
  - lia.
Defined.

(** C7. The walk of every doubly-linked bin advances on the raw [fd] of
    each chunk: the parse calls of a walk are made, in order, at
    [bin_entry.fd] and then at the raw [fd] of each chunk of the bin, and
    changing the [fd_demangled] of the chunks in any way changes neither
    the calls nor anything else of the result. The bins returned for the
    unsorted, the small and the large entries carry [safe_link == false]. *)
Theorem C7_raw_fd_no_safe_link (p : MallocChunkParser.t) :
  (forall fuel bin_entry tr b,
     BinParser._parse_from_bin_entry fuel (BinParser.__init__ p) bin_entry = Some (tr, Ok b) ->
     Bin._safe_link b = false /\
     tr = map ParseChunk (parse_calls tr) /\
     parse_calls tr `prefix_of` BinEntry.fd bin_entry :: map MallocChunk.fd (Bin.chunks b)) /\
  (forall g fuel bin_entry,
     BinParser._parse_from_bin_entry fuel (BinParser.__init__ (remangled_parser g p)) bin_entry =
     remangle_bin g <$> BinParser._parse_from_bin_entry fuel (BinParser.__init__ p) bin_entry) /\
  (forall fuel malloc_state tr b,
     BinParser.parse_unsorted_bin_from_malloc_state fuel (BinParser.__init__ p) malloc_state =
       Some (tr, Ok b) ->
     Bin._safe_link b = false) /\
  (forall fuel malloc_state tr bins,
     BinParser.parse_small_bins_from_malloc_state fuel (BinParser.__init__ p) malloc_state =
       Some (tr, Ok bins) ->
     Forall (fun b => Bin._safe_link b = false) bins) /\
  (forall fuel malloc_state tr bins,
     BinParser.parse_large_bins_from_malloc_state fuel (BinParser.__init__ p) malloc_state =
       Some (tr, Ok bins) ->
     Forall (fun b => Bin._safe_link b = false) bins).
Proof.
  assert (Hone : forall fuel bin_entry tr b,
     BinParser._parse_from_bin_entry fuel (BinParser.__init__ p) bin_entry = Some (tr, Ok b) ->
     Bin._safe_link b = false /\
     tr = map ParseChunk (parse_calls tr) /\
     parse_calls tr `prefix_of` BinEntry.fd bin_entry :: map MallocChunk.fd (Bin.chunks b)).
  { intros fuel bin_entry tr b H.
    apply parse_from_bin_entry_sound in H as (called & -> & Htrail & _ & _ & ->).
    rewrite parse_calls_map. split; [done|]. split; [done|].
    by apply trail_prefix in Htrail. }
  split; [done|]. split; [intros; apply parse_from_bin_entry_remangled|].
  split; [intros fuel malloc_state tr b H; by apply Hone in H as [? _]|].
  split; intros fuel malloc_state tr bins H;
    by apply parse_entries_safe_link in H.
Qed.

Lemma C7_raw_fd_no_safe_link_witness :
  exists b,
    BinParser._parse_from_bin_entry 3 (Fixtures.bin_parser Fixtures.fd_is_entry_address)
      Fixtures.unsorted_entry = Some ([ParseChunk 0xC000; ParseChunk 0x7010], Ok b) /\
    Bin._safe_link b = false /\
    map MallocChunk.fd (Bin.chunks b) = [0x7010; 0x7010] /\
    map MallocChunk.fd_demangled (Bin.chunks b) = [0x701C; 0x7017].
Proof.
  eexists. split; [vm_compute; reflexivity|].
  split; [|split; reflexivity].
  eapply (proj1 (C7_raw_fd_no_safe_link (MallocChunkParser.of_memory 8
                   Fixtures.fd_is_entry_address)) 3%nat Fixtures.unsorted_entry).
  vm_compute. reflexivity.
Defined.

(** C9. For every bin returned by [_parse_from_bin_entry], the addresses
    from which its chunks were parsed (the first [len(chunks)] parse calls
    of the walk) are pairwise distinct and none of them is the head of the
    bin [bin_entry.address - 2P]; so no two chunks of the list were parsed
    from the same address. *)
Theorem C9_parsed_addresses_distinct (self : BinParser.t) (bin_entry : BinEntry.t)
    (fuel : nat) (tr : list event) (b : Bin.t) :
  BinParser._parse_from_bin_entry fuel self bin_entry = Some (tr, Ok b) ->
  let parsed_from := take (length (Bin.chunks b)) (parse_calls tr) in
  Forall2 (fun a c => parse_of self a = Ok c) parsed_from (Bin.chunks b) /\
  NoDup parsed_from /\
  (BinEntry.address bin_entry - 2 * BinParser._pointer_size self ∉ parsed_from) /\
  (forall i j a, parsed_from !! i = Some a -> parsed_from !! j = Some a -> i = j).
Proof.
  intros (called & -> & Htrail & Hnd & Hbase & _)%parse_from_bin_entry_sound.
  rewrite parse_calls_map. simpl.
  assert (Hnd' : NoDup (take (length (Bin.chunks b)) called)).
  { eapply sublist_NoDup; [done|apply sublist_take]. }
  split; [by apply trail_parsed in Htrail|]. split; [done|]. split.
  - intros Hin. apply Hbase. unfold BinParser.base_bin_address.
    replace (BinParser._pointer_size self * 2) with (2 * BinParser._pointer_size self) by lia.
    by apply (subseteq_take (length (Bin.chunks b)) called).
  - intros i j a Hi Hj. by eapply NoDup_lookup.
Qed.

Lemma C9_parsed_addresses_distinct_witness :
  exists b,
    BinParser._parse_from_bin_entry 3 (Fixtures.bin_parser Fixtures.fd_is_entry_address)
      Fixtures.unsorted_entry = Some ([ParseChunk 0xC000; ParseChunk 0x7010], Ok b) /\
    NoDup (take (length (Bin.chunks b)) [0xC000; 0x7010]) /\
    (0x7000 ∉ take (length (Bin.chunks b)) [0xC000; 0x7010]).
Proof.
  eexists. split; [vm_compute; reflexivity|].
  pose proof (C9_parsed_addresses_distinct
                (Fixtures.bin_parser Fixtures.fd_is_entry_address)
                Fixtures.unsorted_entry 3 _ _ eq_refl) as (_ & Hnd & Hbase & _).
  split; [exact Hnd|exact Hbase].
Defined.

(** * The heap explorer *)

(** ** Python's list subscript *)

Lemma list_getitem_nonneg {A} (l : list A) (i : Z) :
  0 <= i < Z.of_nat (length l) ->
  exists x, l !! Z.to_nat i = Some x /\ list_getitem l i = Ok x.
Proof.
  intros Hi. unfold list_getitem.
  destruct (i <? 0) eqn:Hneg; [lia|].
  destruct (lookup_lt_is_Some_2 l (Z.to_nat i)) as [x Hx]; [lia|].
  exists x. split; [done|]. rewrite Hx.
  replace (0 <=? i) with true by lia. replace (i <? Z.of_nat (length l)) with true by lia.
  done.
Qed.

Lemma list_getitem_negative {A} (l : list A) (i : Z) :
  - Z.of_nat (length l) <= i < 0 ->
  exists x, l !! Z.to_nat (Z.of_nat (length l) + i) = Some x /\ list_getitem l i = Ok x.
Proof.
  intros Hi. unfold list_getitem.
  destruct (i <? 0) eqn:Hneg; [|lia].
  destruct (lookup_lt_is_Some_2 l (Z.to_nat (Z.of_nat (length l) + i))) as [x Hx]; [lia|].
  exists x. split; [done|]. rewrite (Z.add_comm i), Hx.
  replace (0 <=? Z.of_nat (length l) + i) with true by lia.
  replace (Z.of_nat (length l) + i <? Z.of_nat (length l)) with true by lia.
  done.
Qed.

Lemma list_getitem_out_of_range {A} (l : list A) (i : Z) :
  Z.of_nat (length l) <= i \/ i < - Z.of_nat (length l) ->
  list_getitem l i = Raise IndexError.
Proof.
  intros Hi. unfold list_getitem.
  destruct (i <? 0) eqn:Hneg.
  - replace (0 <=? i + Z.of_nat (length l)) with false by lia. done.
  - replace (i <? Z.of_nat (length l)) with false by lia.
    by rewrite andb_false_r.
Qed.

Lemma list_getitem_last {A} (l : list A) :
  l <> [] -> exists x, last l = Some x /\ list_getitem l (-1) = Ok x.
Proof.
  intros Hl. destruct (list_getitem_negative l (-1)) as (x & Hx & Hget).
  { destruct l; [done|]. simpl length. lia. }
  exists x. split; [|done]. rewrite last_lookup. rewrite <- Hx. f_equal.
  destruct l; [done|]. simpl length. lia.
Qed.

(** ** The ring of arenas (modelled from the spec) *)

Lemma ring_mono arenas fuel : forall fuel' observed states current r,
  MallocStateParser.ring fuel arenas observed states current = Some r ->
  (fuel <= fuel')%nat ->
  MallocStateParser.ring fuel' arenas observed states current = Some r.
Proof.
  induction fuel as [|fuel IH]; intros fuel' observed states current r H Hle;
    simpl in H; [done|].
  destruct fuel' as [|fuel']; [lia|]. simpl.
  destruct (arenas !! current) as [ms|]; [|done].
  case_bool_decide; [done|]. apply IH; [done|lia].
Qed.

Lemma ring_total arenas fuel : forall observed states current,
  current ∉ observed ->
  (size (dom arenas ∖ list_to_set observed) < fuel)%nat ->
  is_Some (MallocStateParser.ring fuel arenas observed states current).
Proof.
  induction fuel as [|fuel IH]; intros observed states current Hfresh Hlt; [lia|].
  simpl. destruct (arenas !! current) as [ms|] eqn:Hms; [|by eexists].
  case_bool_decide as Hnext; [by eexists|].
  apply IH; [done|].
  assert (dom arenas ∖ list_to_set (observed ++ [current]) ⊂
          dom arenas ∖ list_to_set observed) as Hsub.
  { rewrite list_to_set_app_L. simpl. apply strict_spec_alt. split; [set_solver|].
    intros Heq.
    assert (Hc : current ∈ dom arenas ∖ list_to_set (C:=gset Z) observed).
    { apply elem_of_difference. split; [by apply elem_of_dom|set_solver]. }
    rewrite <- Heq in Hc. set_solver. }
  apply subset_size in Hsub. lia.
Qed.

(** Whatever fuel ends the walk of the ring gives the answer of
    [parse_all]. *)
Lemma parse_all_of_ring arenas main fuel states :
  MallocStateParser.ring fuel arenas [] [] main = Some states ->
  MallocStateParser.parse_all arenas main = Ok states.
Proof.
  intros H. unfold MallocStateParser.parse_all.
  destruct (ring_total arenas (S (size arenas)) [] [] main) as [states' H'].
  { set_solver. }
  { simpl. rewrite difference_empty_L, size_dom. lia. }
  rewrite H'.
  apply (ring_mono _ _ (Nat.max fuel (S (size arenas)))) in H; [|lia].
  apply (ring_mono _ _ (Nat.max fuel (S (size arenas)))) in H'; [|lia].
  congruence.
Qed.

(** ** The monad, continued *)

Lemma for_each_raises {A B} (f : A -> M B) (e : exn) :
  (forall x, snd (f x) <> Raise e) ->
  forall xs acc, snd (for_each f xs acc) <> Raise e.
Proof.
  intros Hf. induction xs as [|x xs IH]; intros acc; simpl; [done|].
  specialize (Hf x). unfold bind. destruct (f x) as [tr [y|e']]; simpl in *; 
    [|intros [= ->]; by apply Hf].
  specialize (IH (acc ++ [y])).
  destruct (for_each f xs (acc ++ [y])) as [tr' r']; simpl in *. done.
Qed.

(** ** What [__init__] builds *)

Lemma init_inv (c : Collaborators.t) tr self :
  HeapExplorer.__init__ c = (tr, Ok self) ->
  HeapExplorer._are_tcaches_enabled self = (tr, Ok (HeapExplorer.tcaches_enabled self)) /\
  HeapExplorer._process_informer self = Collaborators.process_informer c /\
  HeapExplorer._pointer_size self =
    ProcessInformer.pointer_size (Collaborators.process_informer c) /\
  HeapExplorer._main_arena_address self =
    ProcessInformer.main_arena_address (Collaborators.process_informer c) /\
  HeapExplorer._malloc_state_parser self = Collaborators.malloc_state_parser c /\
  HeapExplorer._tcache_parser self =
    (if HeapExplorer.tcaches_enabled self
     then TcacheParser.EnabledTcacheParser (Collaborators.enabled_tcache_parse c)
     else TcacheParser.DisabledTcacheParser).
Proof.
  unfold HeapExplorer.__init__.
  match goal with |- context [HeapExplorer._are_tcaches_enabled ?p] =>
    set (partial := p) end.
  destruct (HeapExplorer._are_tcaches_enabled partial) as [tr0 [enabled|e]] eqn:Hen;
    simpl; [|done].
  intros [= <- <-]. rewrite app_nil_r. simpl. repeat split. exact Hen.
Qed.

Lemma malloc_state_eq self arena_index tr states :
  HeapExplorer.all_arenas_malloc_states self = (tr, Ok states) ->
  HeapExplorer.malloc_state self arena_index = (tr, list_getitem states arena_index).
Proof.
  intros H. unfold HeapExplorer.malloc_state. rewrite H. simpl. by rewrite app_nil_r.
Qed.

(** [arenas_count] is the length of what [all_arenas_malloc_states]
    returns, and raises what it raises. *)
Lemma arenas_count_eq (self : HeapExplorer.t) :
  (forall tr states,
     HeapExplorer.all_arenas_malloc_states self = (tr, Ok states) ->
     HeapExplorer.arenas_count self = (tr, Ok (Z.of_nat (length states)))) /\
  (forall tr e,
     HeapExplorer.all_arenas_malloc_states self = (tr, Raise e) ->
     HeapExplorer.arenas_count self = (tr, Raise e)).
Proof.
  split.
  - intros tr states H. unfold HeapExplorer.arenas_count. rewrite H. simpl.
    by rewrite app_nil_r.
  - intros tr e H. unfold HeapExplorer.arenas_count. by rewrite H.
Qed.

(** * The heap explorer: claims *)

(** C5 (amended). For every process whose libc version is at least 2.26,
    [tcaches_enabled] is true if and only if the size of the first chunk
    of the main heap equals [P*64 + 0x50], where [P] is the pointer size;
    any other first-chunk size yields [tcaches_enabled == false]. *)
Theorem C5_tcache_detection (c : Collaborators.t) (tr tr' : list event)
    (self : HeapExplorer.t) (heap : Heap.t) (first : MallocChunk.t)
    (rest : list MallocChunk.t) :
  ProcessInformer.is_libc_version_lower_than (Collaborators.process_informer c) [2; 26]
    = false ->
  HeapExplorer.__init__ c = (tr, Ok self) ->
  HeapExplorer.heap self 0 = (tr', Ok heap) ->
  Heap.chunks heap = first :: rest ->
  (HeapExplorer.tcaches_enabled self = true <->
   MallocChunk.size first =
     ProcessInformer.pointer_size (Collaborators.process_informer c) * 64 + 0x50) /\
  (MallocChunk.size first <>
     ProcessInformer.pointer_size (Collaborators.process_informer c) * 64 + 0x50 ->
   HeapExplorer.tcaches_enabled self = false).
Proof.
  intros Hver (Hen & Hinf & HP & _)%init_inv Hheap Hchunks.
  unfold HeapExplorer._are_tcaches_enabled in Hen.
  rewrite Hinf, Hver, Hheap, HP in Hen. simpl in Hen. rewrite Hchunks in Hen.
  injection Hen as _ Hen. rewrite <- Hen.
  split; [|intros Hne]; [split; intros H|]; lia.
Qed.

Lemma C5_tcache_detection_witness :
  exists self,
    Fixtures.explorer (Fixtures.target [2; 31] Fixtures.two_ring 0x250) = Some self /\
    (HeapExplorer.tcaches_enabled self = true <->
     MallocChunk.size (Fixtures.chunk_of_size 0x10000 0x250) = 8 * 64 + 0x50).
Proof.
  eexists. split; [vm_compute; reflexivity|].
  match goal with |- (HeapExplorer.tcaches_enabled ?s = true <-> _) =>
    apply (fun H1 H2 H3 H4 =>
      proj1 (C5_tcache_detection (Fixtures.target [2; 31] Fixtures.two_ring 0x250)
               [ParseAllMallocStates 0x6000; ParseHeap (Fixtures.arena 0x6000 0x9000)]
               [ParseAllMallocStates 0x6000; ParseHeap (Fixtures.arena 0x6000 0x9000)]
               s
               (Heap.mk [Fixtures.chunk_of_size 0x10000 0x250;
                         Fixtures.chunk_of_size (0x10000 + 0x250) 0x20] None)
               (Fixtures.chunk_of_size 0x10000 0x250)
               [Fixtures.chunk_of_size (0x10000 + 0x250) 0x20] H1 H2 H3 H4))
  end.
  - reflexivity.
  - vm_compute. reflexivity.
  - vm_compute. reflexivity.
  - reflexivity.
Defined.

(** C5 as stated fails: on a 64-bit target with libc 2.31 whose first
    chunk has size [2P*64 + 0x50 = 0x450], [tcaches_enabled] is false. *)
Lemma C5_counterexample :
  exists self tr heap first rest,
    ProcessInformer.is_libc_version_lower_than
      (Collaborators.process_informer (Fixtures.target [2; 31] Fixtures.two_ring 0x450))
      [2; 26] = false /\
    Fixtures.explorer (Fixtures.target [2; 31] Fixtures.two_ring 0x450) = Some self /\
    HeapExplorer.heap self 0 = (tr, Ok heap) /\
    Heap.chunks heap = first :: rest /\
    MallocChunk.size first = 2 * HeapExplorer._pointer_size self * 64 + 0x50 /\
    HeapExplorer.tcaches_enabled self = false.
Proof.
  eexists _, _, _, _, _. split; [reflexivity|].
  split; [vm_compute; reflexivity|].
  split; [vm_compute; reflexivity|].
  split; [reflexivity|]. split; reflexivity.
Qed.

(** C6. [tcaches()] and [all_arenas_tcaches()] raise [NoTcacheError] if and
    only if [tcaches_enabled] is false: when it is false both raise it at
    once, with an empty trace (no collaborator is called, so no tcache is
    read); when it is true and neither the malloc state parser nor the
    enabled tcache parser raises [NoTcacheError] (spec, section 7: it is
    raised only for a disabled build), neither call raises it. Whenever the
    libc version is lower than 2.26, [__init__] reads nothing and sets
    [tcaches_enabled] to false, so both calls raise. *)
Theorem C6_no_tcache_error (c : Collaborators.t) :
  (ProcessInformer.is_libc_version_lower_than (Collaborators.process_informer c) [2; 26]
     = true ->
   exists self,
     HeapExplorer.__init__ c = ([], Ok self) /\
     HeapExplorer.tcaches_enabled self = false /\
     (forall i, HeapExplorer.tcaches self i = ([], Raise NoTcacheError)) /\
     HeapExplorer.all_arenas_tcaches self = ([], Raise NoTcacheError)) /\
  (forall tr self,
     HeapExplorer.__init__ c = (tr, Ok self) ->
     (HeapExplorer.tcaches_enabled self = false ->
      (forall i, HeapExplorer.tcaches self i = ([], Raise NoTcacheError)) /\
      HeapExplorer.all_arenas_tcaches self = ([], Raise NoTcacheError)) /\
     (HeapExplorer.tcaches_enabled self = true ->
      (forall ms, Collaborators.enabled_tcache_parse c ms <> Raise NoTcacheError) ->
      MallocStateParser.parse_all_from_main_malloc_state_address
        (Collaborators.malloc_state_parser c)
        (ProcessInformer.main_arena_address (Collaborators.process_informer c))
        <> Raise NoTcacheError ->
      (forall i, snd (HeapExplorer.tcaches self i) <> Raise NoTcacheError) /\
      snd (HeapExplorer.all_arenas_tcaches self) <> Raise NoTcacheError)).
Proof.
  assert (Hdisabled : forall self, HeapExplorer.tcaches_enabled self = false ->
      (forall i, HeapExplorer.tcaches self i = ([], Raise NoTcacheError)) /\
      HeapExplorer.all_arenas_tcaches self = ([], Raise NoTcacheError)).
  { intros self Hen. unfold HeapExplorer.tcaches, HeapExplorer.all_arenas_tcaches.
    by rewrite Hen. }
  split.
  - intros Hver. unfold HeapExplorer.__init__, HeapExplorer._are_tcaches_enabled.
    simpl. rewrite Hver. simpl. eexists. split; [reflexivity|].
    split; [reflexivity|]. by apply Hdisabled.
  - intros tr self Hinit. split; [apply Hdisabled|].
    intros Hen Htc Hms.
    apply init_inv in Hinit as (_ & _ & _ & Hmain & Hparser & Htp).
    rewrite Hen in Htp.
    assert (Hone : forall ms,
      snd (TcacheParser.parse_all_from_malloc_state (HeapExplorer._tcache_parser self) ms)
        <> Raise NoTcacheError).
    { intros ms. rewrite Htp. simpl. apply Htc. }
    unfold HeapExplorer.tcaches, HeapExplorer.all_arenas_tcaches,
      HeapExplorer.malloc_state, HeapExplorer.all_arenas_malloc_states.
    rewrite Hen, Hmain, Hparser. simpl.
    destruct (MallocStateParser.parse_all_from_main_malloc_state_address _ _)
      as [states|e] eqn:Hstates; simpl.
    + split.
      * intros i. destruct (list_getitem states i) as [ms|e] eqn:Hget; simpl.
        -- specialize (Hone ms).
           destruct (TcacheParser.parse_all_from_malloc_state _ ms); simpl in *. done.
        -- unfold list_getitem in Hget.
           repeat (match type of Hget with
                   | context [if ?b then _ else _] => destruct b
                   | context [match ?o with Some _ => _ | None => _ end] => destruct o
                   end); by inversion Hget.
      * pose proof (for_each_raises _ NoTcacheError Hone states []) as Hall.
        destruct (for_each _ states []); simpl in *. done.
    + split; [intros i|]; intros [= ->]; done.
Qed.

Lemma C6_no_tcache_error_witness :
  (exists self,
     HeapExplorer.__init__ (Fixtures.target [2; 25] Fixtures.two_ring 0x250) = ([], Ok self) /\
     HeapExplorer.tcaches_enabled self = false /\
     (forall i, HeapExplorer.tcaches self i = ([], Raise NoTcacheError)) /\
     HeapExplorer.all_arenas_tcaches self = ([], Raise NoTcacheError)) /\
  (exists self,
     Fixtures.explorer (Fixtures.target [2; 31] Fixtures.two_ring 0x250) = Some self /\
     HeapExplorer.tcaches_enabled self = true /\
     forall i, snd (HeapExplorer.tcaches self i) <> Raise NoTcacheError).
Proof.
  split.
  - apply (proj1 (C6_no_tcache_error (Fixtures.target [2; 25] Fixtures.two_ring 0x250))).
    reflexivity.
  - eexists. split; [vm_compute; reflexivity|]. split; [reflexivity|].
    match goal with |- forall i, snd (HeapExplorer.tcaches ?s i) <> _ =>
      apply (fun Hinit Hen Htc Hms =>
        proj1 (proj2 (proj2 (C6_no_tcache_error
                                (Fixtures.target [2; 31] Fixtures.two_ring 0x250))
                        [ParseAllMallocStates 0x6000;
                         ParseHeap (Fixtures.arena 0x6000 0x9000)] s Hinit)
                     Hen Htc Hms))
    end.
    + vm_compute. reflexivity.
    + reflexivity.
    + intros ms. discriminate.
    + vm_compute. discriminate.
Defined.

(** C8. [arenas_count()] always equals the length of the list returned by
    [all_arenas_malloc_states()] (and raises what that call raises, after
    the same single call). With the ring walk of the malloc state parser,
    a ring of two arenas ([main.next = A1], [A1.next = main]) gives 2 and a
    ring of the main arena alone ([main.next == main]) gives 1. *)
Theorem C8_arenas_count (self : HeapExplorer.t) :
  (forall tr states,
     HeapExplorer.all_arenas_malloc_states self = (tr, Ok states) ->
     HeapExplorer.arenas_count self = (tr, Ok (Z.of_nat (length states)))) /\
  (forall tr e,
     HeapExplorer.all_arenas_malloc_states self = (tr, Raise e) ->
     HeapExplorer.arenas_count self = (tr, Raise e)) /\
  (forall arenas main_state A1 A1_state,
     HeapExplorer._malloc_state_parser self = MallocStateParser.of_arenas arenas ->
     arenas !! HeapExplorer._main_arena_address self = Some main_state ->
     MallocState.next main_state = A1 ->
     A1 <> HeapExplorer._main_arena_address self ->
     arenas !! A1 = Some A1_state ->
     MallocState.next A1_state = HeapExplorer._main_arena_address self ->
     HeapExplorer.all_arenas_malloc_states self =
       ([ParseAllMallocStates (HeapExplorer._main_arena_address self)],
        Ok [main_state; A1_state]) /\
     HeapExplorer.arenas_count self =
       ([ParseAllMallocStates (HeapExplorer._main_arena_address self)], Ok 2)) /\
  (forall arenas main_state,
     HeapExplorer._malloc_state_parser self = MallocStateParser.of_arenas arenas ->
     arenas !! HeapExplorer._main_arena_address self = Some main_state ->
     MallocState.next main_state = HeapExplorer._main_arena_address self ->
     HeapExplorer.all_arenas_malloc_states self =
       ([ParseAllMallocStates (HeapExplorer._main_arena_address self)], Ok [main_state]) /\
     HeapExplorer.arenas_count self =
       ([ParseAllMallocStates (HeapExplorer._main_arena_address self)], Ok 1)).
Proof.
  destruct (arenas_count_eq self) as [Hcount Hraise].
  split; [done|]. split; [done|]. split.
  - intros arenas main_state A1 A1_state Hparser Hmain Hnext Hne HA1 Hback.
    assert (Hall : HeapExplorer.all_arenas_malloc_states self =
       ([ParseAllMallocStates (HeapExplorer._main_arena_address self)],
        Ok [main_state; A1_state])).
    { unfold HeapExplorer.all_arenas_malloc_states, call. rewrite Hparser. simpl.
      f_equal. apply (parse_all_of_ring _ _ 2). simpl.
      rewrite Hmain, Hnext. rewrite bool_decide_eq_false_2 by set_solver.
      rewrite HA1, Hback. by rewrite bool_decide_eq_true_2 by set_solver. }
    split; [done|]. by apply Hcount in Hall.
  - intros arenas main_state Hparser Hmain Hnext.
    assert (Hall : HeapExplorer.all_arenas_malloc_states self =
       ([ParseAllMallocStates (HeapExplorer._main_arena_address self)], Ok [main_state])).
    { unfold HeapExplorer.all_arenas_malloc_states, call. rewrite Hparser. simpl.
      f_equal. apply (parse_all_of_ring _ _ 1). simpl.
      rewrite Hmain, Hnext. by rewrite bool_decide_eq_true_2 by set_solver. }
    split; [done|]. by apply Hcount in Hall.
Qed.

Lemma C8_arenas_count_witness :
  (exists self,
     Fixtures.explorer (Fixtures.target [2; 31] Fixtures.two_ring 0x250) = Some self /\
     HeapExplorer.arenas_count self = ([ParseAllMallocStates 0x6000], Ok 2)) /\
  (exists self,
     Fixtures.explorer (Fixtures.target [2; 31] Fixtures.self_ring 0x250) = Some self /\
     HeapExplorer.arenas_count self = ([ParseAllMallocStates 0x6000], Ok 1)).
Proof.
  split.
  - eexists. split; [vm_compute; reflexivity|].
    match goal with |- HeapExplorer.arenas_count ?s = _ =>
      apply (fun H1 H2 H3 H4 H5 H6 =>
        proj2 (proj1 (proj2 (proj2 (C8_arenas_count s))) Fixtures.two_ring
                 (Fixtures.arena 0x6000 0x9000) 0x9000 (Fixtures.arena 0x9000 0x6000)
                 H1 H2 H3 H4 H5 H6))
    end.
    + reflexivity.
    + vm_compute. reflexivity.
    + reflexivity.
    + vm_compute. discriminate.
    + vm_compute. reflexivity.
    + reflexivity.
  - eexists. split; [vm_compute; reflexivity|].
    match goal with |- HeapExplorer.arenas_count ?s = _ =>
      apply (fun H1 H2 H3 =>
        proj2 (proj2 (proj2 (proj2 (C8_arenas_count s))) Fixtures.self_ring
                 (Fixtures.arena 0x6000 0x6000) H1 H2 H3))
    end.
    + reflexivity.
    + vm_compute. reflexivity.
    + reflexivity.
Defined.

(** C10 (amended). [malloc_state(arena_index)] returns exactly the element
    at position [arena_index] of the list returned by
    [all_arenas_malloc_states()], as Python's subscript does. With
    [n = arenas_count()]: for [0 <= arena_index < n] it is the element at
    that position; for every [arena_index >= n] it fails with an index
    error; for [-n <= arena_index < 0] it is the element at position
    [n + arena_index], so [malloc_state(-1)] is the last arena of the ring
    order when there is one; for [arena_index < -n] it fails with an index
    error. *)
Theorem C10_malloc_state_index (self : HeapExplorer.t) (tr : list event)
    (states : list MallocState.t) (arena_index : Z) :
  HeapExplorer.all_arenas_malloc_states self = (tr, Ok states) ->
  HeapExplorer.arenas_count self = (tr, Ok (Z.of_nat (length states))) /\
  HeapExplorer.malloc_state self arena_index = (tr, list_getitem states arena_index) /\
  (0 <= arena_index < Z.of_nat (length states) ->
   exists ms, states !! Z.to_nat arena_index = Some ms /\
              HeapExplorer.malloc_state self arena_index = (tr, Ok ms)) /\
  (Z.of_nat (length states) <= arena_index ->
   HeapExplorer.malloc_state self arena_index = (tr, Raise IndexError)) /\
  (- Z.of_nat (length states) <= arena_index < 0 ->
   exists ms, states !! Z.to_nat (Z.of_nat (length states) + arena_index) = Some ms /\
              HeapExplorer.malloc_state self arena_index = (tr, Ok ms)) /\
  (arena_index = -1 -> states <> [] ->
   exists ms, last states = Some ms /\
              HeapExplorer.malloc_state self arena_index = (tr, Ok ms)) /\
  (arena_index < - Z.of_nat (length states) ->
   HeapExplorer.malloc_state self arena_index = (tr, Raise IndexError)).
Proof.
  intros Hall. pose proof (malloc_state_eq self arena_index tr states Hall) as Hms.
  split; [by apply (proj1 (arenas_count_eq self))|].
  split; [done|]. rewrite Hms.
  split; [intros Hi; destruct (list_getitem_nonneg states arena_index Hi) as (ms & ? & ->);
          by exists ms|].
  split; [intros Hi; rewrite list_getitem_out_of_range; [done|lia]|].
  split; [intros Hi; destruct (list_getitem_negative states arena_index Hi) as (ms & ? & ->);
          by exists ms|].
  split; [intros -> Hne; destruct (list_getitem_last states Hne) as (ms & ? & ->);
          by exists ms|].
  intros Hi. rewrite list_getitem_out_of_range; [done|lia].
Qed.

Lemma C10_malloc_state_index_witness :
  exists self,
    Fixtures.explorer (Fixtures.target [2; 31] Fixtures.two_ring 0x250) = Some self /\
    exists ms,
      last [Fixtures.arena 0x6000 0x9000; Fixtures.arena 0x9000 0x6000] = Some ms /\
      HeapExplorer.malloc_state self (-1) = ([ParseAllMallocStates 0x6000], Ok ms).
Proof.
  eexists. split; [vm_compute; reflexivity|].
  match goal with |- exists ms, _ /\ HeapExplorer.malloc_state ?s _ = _ =>
    apply (fun Hall Hidx Hne =>
      proj1 (proj2 (proj2 (proj2 (proj2 (proj2
        (C10_malloc_state_index s [ParseAllMallocStates 0x6000]
           [Fixtures.arena 0x6000 0x9000; Fixtures.arena 0x9000 0x6000] (-1) Hall))))))
        Hidx Hne)
  end.
  - vm_compute. reflexivity.
  - reflexivity.
  - discriminate.
Defined.

(** C10 as stated fails for a negative index below [-arenas_count()]: with
    two arenas, [malloc_state(-3)] fails with an index error instead of
    selecting from the end of the list. *)
Lemma C10_counterexample :
  exists self,
    Fixtures.explorer (Fixtures.target [2; 31] Fixtures.two_ring 0x250) = Some self /\
    HeapExplorer.arenas_count self = ([ParseAllMallocStates 0x6000], Ok 2) /\
    -3 < 0 /\
    HeapExplorer.malloc_state self (-3) = ([ParseAllMallocStates 0x6000], Raise IndexError).
Proof.
  eexists. split; [vm_compute; reflexivity|].
  split; [vm_compute; reflexivity|]. split; [lia|]. vm_compute. reflexivity.
Qed.


(** * The rest of bin_parser.py *)

(** ** How a walk ends *)

Lemma walk_end self fuel : forall tr addresses chunks current tr' st,
  BinParser.walk fuel self tr addresses chunks current = Some (tr', Ok st) ->
  exists new_addresses new_chunks,
    st = (addresses ++ new_addresses, chunks ++ new_chunks) /\
    tr' = tr ++ map ParseChunk new_addresses /\
    ((length new_addresses = length new_chunks /\
      exists a, last (current :: map MallocChunk.fd new_chunks) = Some a /\
                a ∈ addresses ++ new_addresses) \/
     (length new_addresses = S (length new_chunks) /\
      exists a, last new_addresses = Some a /\ parse_of self a = Raise OSError)).
Proof.
  induction fuel as [|fuel IH]; intros tr addresses chunks current tr' st H;
    simpl in H; [done|].
  case_bool_decide as Hin.
  - injection H as <- <-. exists [], []. rewrite !app_nil_r.
    split; [done|]. split; [done|]. left. split; [done|]. by exists current.
  - destruct (parse_of self current) as [chunk|e] eqn:Hparse.
    + apply IH in H as (na & nc & -> & -> & Hend).
      exists (current :: na), (chunk :: nc). rewrite <- !app_assoc.
      split; [done|]. split; [done|].
      destruct Hend as [(Hlen & a & Hlast & Ha)|(Hlen & a & Hlast & Ha)].
      * left. split; [simpl; lia|]. exists a. split; [done|].
        by rewrite <- app_assoc in Ha.
      * right. split; [simpl; lia|]. exists a. split; [|done].
        destruct na; [done|]. done.
    + destruct e; try done. injection H as <- <-.
      exists [current], []. rewrite app_nil_r.
      split; [done|]. split; [done|]. right. split; [done|]. by exists current.
Qed.

(** X1. No read error comes out of the bin parser: an exception raised by
    [_parse_from_bin_entry] is not [OSError], and it is the one the chunk
    parser raised at the last address of the walk; the three methods that
    parse the bins of a malloc state raise no [OSError] either. *)
Theorem X1_read_errors_contained (self : BinParser.t) :
  (forall fuel bin_entry tr e,
     BinParser._parse_from_bin_entry fuel self bin_entry = Some (tr, Raise e) ->
     e <> OSError /\
     exists a, last (parse_calls tr) = Some a /\ parse_of self a = Raise e) /\
  (forall fuel malloc_state tr e,
     BinParser.parse_unsorted_bin_from_malloc_state fuel self malloc_state =
       Some (tr, Raise e) -> e <> OSError) /\
  (forall fuel malloc_state tr e,
     BinParser.parse_small_bins_from_malloc_state fuel self malloc_state =
       Some (tr, Raise e) -> e <> OSError) /\
  (forall fuel malloc_state tr e,
     BinParser.parse_large_bins_from_malloc_state fuel self malloc_state =
       Some (tr, Raise e) -> e <> OSError).
Proof.
  assert (Hone : forall fuel bin_entry tr e,
     BinParser._parse_from_bin_entry fuel self bin_entry = Some (tr, Raise e) ->
     e <> OSError /\
     exists a, last (parse_calls tr) = Some a /\ parse_of self a = Raise e).
  { intros fuel bin_entry tr e.
    unfold BinParser._parse_from_bin_entry, BinParser.walk_from_bin_entry.
    destruct (BinParser.walk fuel self _ _ _ _) as [[tr0 r0]|] eqn:Hw; [|done].
    apply walk_sound in Hw as (na & nc & _ & -> & _ & _ & Hr). simpl in *.
    destruct r0 as [st|e0]; simpl; intros [= <- <-].
    rewrite parse_calls_map. exact Hr. }
  assert (Hall : forall fuel entries tr bins tr' e,
     BinParser.parse_entries fuel self entries tr bins = Some (tr', Raise e) ->
     e <> OSError).
  { intros fuel. induction entries as [|entry entries IH]; intros tr bins tr' e H;
      simpl in H; [done|].
    destruct (BinParser._parse_from_bin_entry fuel self entry) as [[tr1 [b|e1]]|] eqn:He;
      [by eapply IH| |done].
    injection H as <- <-. by apply Hone in He as [? _]. }
  split; [done|]. split; [|split].
  - intros fuel malloc_state tr e H. by apply Hone in H as [? _].
  - intros fuel malloc_state tr e H. by eapply Hall.
  - intros fuel malloc_state tr e H. by eapply Hall.
Qed.

Lemma X1_read_errors_contained_witness :
  OtherError <> OSError /\
  exists a, last (parse_calls [ParseChunk 0xC000]) = Some a /\
            parse_of (BinParser.__init__ Cases.fussy_parser) a = Raise OtherError.
Proof.
  apply (proj1 (X1_read_errors_contained (BinParser.__init__ Cases.fussy_parser))
           1%nat Fixtures.unsorted_entry [ParseChunk 0xC000] OtherError).
  reflexivity.
Defined.

(** X2. A walk that returns a bin has ended in one of two ways. Either
    every chunk it tried was parsed, and the address it would have tried
    next (the [fd] of the last chunk, or [bin_entry.fd] when there is no
    chunk) is the head of the bin or an address it had already tried; or
    it made one parse more than there are chunks, and that last parse
    failed with a read error. *)
Theorem X2_walk_end_reasons (self : BinParser.t) (bin_entry : BinEntry.t)
    (fuel : nat) (tr : list event) (b : Bin.t) :
  BinParser._parse_from_bin_entry fuel self bin_entry = Some (tr, Ok b) ->
  (length (parse_calls tr) = length (Bin.chunks b) /\
   exists a, last (BinEntry.fd bin_entry :: map MallocChunk.fd (Bin.chunks b)) = Some a /\
             a ∈ BinParser.base_bin_address self bin_entry :: parse_calls tr) \/
  (length (parse_calls tr) = S (length (Bin.chunks b)) /\
   exists a, last (parse_calls tr) = Some a /\ parse_of self a = Raise OSError).
Proof.
  intros (addresses & chunks & Hw & ->)%parse_from_bin_entry_inv.
  apply walk_end in Hw as (na & nc & [= -> ->] & -> & Hend).
  simpl. rewrite parse_calls_map. exact Hend.
Qed.

Lemma X2_walk_end_reasons_witness :
  exists b,
    BinParser._parse_from_bin_entry 2 (Fixtures.bin_parser Cases.self_loop)
      Fixtures.unsorted_entry = Some ([ParseChunk 0xC000], Ok b) /\
    ((length (parse_calls [ParseChunk 0xC000]) = length (Bin.chunks b) /\
      exists a, last (BinEntry.fd Fixtures.unsorted_entry ::
                        map MallocChunk.fd (Bin.chunks b)) = Some a /\
                a ∈ BinParser.base_bin_address (Fixtures.bin_parser Cases.self_loop)
                      Fixtures.unsorted_entry :: parse_calls [ParseChunk 0xC000]) \/
     (length (parse_calls [ParseChunk 0xC000]) = S (length (Bin.chunks b)) /\
      exists a, last (parse_calls [ParseChunk 0xC000]) = Some a /\
                parse_of (Fixtures.bin_parser Cases.self_loop) a = Raise OSError)).
Proof.
  eexists. split; [vm_compute; reflexivity|].
  match goal with |- (length _ = length (Bin.chunks ?b) /\ _) \/ _ =>
    apply (X2_walk_end_reasons (Fixtures.bin_parser Cases.self_loop)
             Fixtures.unsorted_entry 2 [ParseChunk 0xC000] b)
  end.
  vm_compute. reflexivity.
Defined.

(** X3. A bin never lists more chunks than there are addresses at which
    the chunk parser succeeds, the head of the bin not counted, whatever
    cycles the pointers form; over a memory image, never more than there
    are readable words. *)
Theorem X3_chunk_count_bounded :
  (forall (self : BinParser.t) (D : gset Z) (bin_entry : BinEntry.t)
          (fuel : nat) (tr : list event) (b : Bin.t),
     (forall a c, parse_of self a = Ok c -> a ∈ D) ->
     BinParser._parse_from_bin_entry fuel self bin_entry = Some (tr, Ok b) ->
     (length (Bin.chunks b) <=
      size (D ∖ {[BinParser.base_bin_address self bin_entry]}))%nat) /\
  (forall (P : Z) (words : gmap Z Z) (bin_entry : BinEntry.t)
          (fuel : nat) (tr : list event) (b : Bin.t),
     BinParser._parse_from_bin_entry fuel
       (BinParser.__init__ (MallocChunkParser.of_memory P words)) bin_entry =
       Some (tr, Ok b) ->
     (Z.to_nat (Bin.__len__ b) <= size words)%nat).
Proof.
  assert (Hgen : forall (self : BinParser.t) (D : gset Z) (bin_entry : BinEntry.t)
          (fuel : nat) (tr : list event) (b : Bin.t),
     (forall a c, parse_of self a = Ok c -> a ∈ D) ->
     BinParser._parse_from_bin_entry fuel self bin_entry = Some (tr, Ok b) ->
     (length (Bin.chunks b) <=
      size (D ∖ {[BinParser.base_bin_address self bin_entry]}))%nat).
  { intros self D bin_entry fuel tr b HD
      (called & -> & Htrail & Hnd & Hbase & _)%parse_from_bin_entry_sound.
    apply trail_parsed in Htrail.
    set (parsed := take (length (Bin.chunks b)) called) in *.
    assert (Hnd' : NoDup parsed) by (eapply sublist_NoDup; [done|apply sublist_take]).
    rewrite <- (Forall2_length _ _ _ Htrail).
    rewrite <- (size_list_to_set (C:=gset Z) parsed) by done.
    apply subseteq_size. intros a Ha%elem_of_list_to_set.
    apply elem_of_difference. split.
    - apply list_elem_of_lookup in Ha as [i Hi].
      destruct (Forall2_lookup_l _ _ _ i a Htrail Hi) as (c & _ & Hc).
      by eapply HD.
    - intros ->%elem_of_singleton. apply Hbase.
      by apply (subseteq_take (length (Bin.chunks b)) called). }
  split; [done|].
  intros P words bin_entry fuel tr b H.
  apply (Hgen _ (dom words)) in H; [|intros a c; apply parse_readable].
  unfold Bin.__len__, Bin.malloc_chunks. rewrite Nat2Z.id.
  etrans; [exact H|]. rewrite <- size_dom. apply subseteq_size. set_solver.
Qed.

Lemma X3_chunk_count_bounded_witness :
  exists b,
    BinParser._parse_from_bin_entry 2 (Fixtures.bin_parser Cases.self_loop)
      Fixtures.unsorted_entry = Some ([ParseChunk 0xC000], Ok b) /\
    (length (Bin.chunks b) <=
     size (dom Cases.self_loop ∖
             {[BinParser.base_bin_address (Fixtures.bin_parser Cases.self_loop)
                 Fixtures.unsorted_entry]}))%nat.
Proof.
  eexists. split; [vm_compute; reflexivity|].
  match goal with |- (length (Bin.chunks ?b) <= _)%nat =>
    apply (proj1 X3_chunk_count_bounded (Fixtures.bin_parser Cases.self_loop)
             (dom Cases.self_loop) Fixtures.unsorted_entry 2%nat [ParseChunk 0xC000] b)
  end.
  - intros a c. apply parse_readable.
  - vm_compute. reflexivity.
Defined.

(** ** The loops over the small and the large entries *)

Lemma parse_entries_ok fuel self : forall entries tr bins tr' bs,
  BinParser.parse_entries fuel self entries tr bins = Some (tr', Ok bs) ->
  exists results : list (list event * Bin.t),
    bs = bins ++ map snd results /\
    tr' = tr ++ concat (map fst results) /\
    Forall2 (fun entry p =>
               BinParser._parse_from_bin_entry fuel self entry = Some (p.1, Ok p.2))
            entries results.
Proof.
  induction entries as [|entry entries IH]; intros tr bins tr' bs H; simpl in H.
  - injection H as <- <-. exists []. simpl. by rewrite !app_nil_r.
  - destruct (BinParser._parse_from_bin_entry fuel self entry) as [[tr1 [b|e]]|] eqn:He;
      [|done|done].
    apply IH in H as (results & -> & -> & Hall).
    exists ((tr1, b) :: results). simpl. rewrite <- !app_assoc.
    split; [done|]. split; [done|]. by constructor.
Qed.

Lemma parse_entries_abort fuel self : forall pre (results : list (list event * Bin.t))
    bad post tr bins tr_bad e,
  Forall2 (fun entry p =>
             BinParser._parse_from_bin_entry fuel self entry = Some (p.1, Ok p.2))
          pre results ->
  BinParser._parse_from_bin_entry fuel self bad = Some (tr_bad, Raise e) ->
  BinParser.parse_entries fuel self (pre ++ bad :: post) tr bins =
    Some (tr ++ concat (map fst results) ++ tr_bad, Raise e).
Proof.
  induction pre as [|entry pre IH]; intros results bad post tr bins tr_bad e Hpre Hbad.
  - apply Forall2_nil_inv_l in Hpre as ->. simpl. by rewrite Hbad.
  - apply Forall2_cons_inv_l in Hpre as ([tr1 b] & results' & He & Hpre & ->).
    simpl in *. rewrite He. rewrite (IH results' bad post _ _ tr_bad e); [|done|done].
    by rewrite <- !app_assoc.
Qed.

Lemma parse_entries_terminates self (D : gset Z) :
  (forall a c, parse_of self a = Ok c -> a ∈ D) ->
  forall entries tr bins,
    exists r, forall fuel, (size D < fuel)%nat ->
      BinParser.parse_entries fuel self entries tr bins = Some r.
Proof.
  intros HD. induction entries as [|entry entries IH]; intros tr bins.
  - by eexists.
  - destruct (parse_from_bin_entry_terminates self D entry HD) as [[tr1 [b|e]] H1].
    + destruct (IH (tr ++ tr1) (bins ++ [b])) as [r Hr].
      exists r. intros fuel Hfuel. simpl. rewrite (H1 fuel Hfuel). by apply Hr.
    + eexists. intros fuel Hfuel. simpl. by rewrite (H1 fuel Hfuel).
Qed.

(** X4. When the parse of the small bins (and of the large bins) returns,
    it returns one bin per entry of the malloc state, in the order of the
    entries; each bin is the one [_parse_from_bin_entry] returns for its
    entry, and the calls made are those of the walks, one walk after the
    other. *)
Theorem X4_one_bin_per_entry (self : BinParser.t) (fuel : nat)
    (malloc_state : MallocState.t) :
  (forall tr bins,
     BinParser.parse_small_bins_from_malloc_state fuel self malloc_state =
       Some (tr, Ok bins) ->
     length bins = length (MallocState.small_bins malloc_state) /\
     exists results : list (list event * Bin.t),
       bins = map snd results /\
       tr = concat (map fst results) /\
       Forall2 (fun entry p =>
                  BinParser._parse_from_bin_entry fuel self entry = Some (p.1, Ok p.2))
               (MallocState.small_bins malloc_state) results) /\
  (forall tr bins,
     BinParser.parse_large_bins_from_malloc_state fuel self malloc_state =
       Some (tr, Ok bins) ->
     length bins = length (MallocState.large_bins malloc_state) /\
     exists results : list (list event * Bin.t),
       bins = map snd results /\
       tr = concat (map fst results) /\
       Forall2 (fun entry p =>
                  BinParser._parse_from_bin_entry fuel self entry = Some (p.1, Ok p.2))
               (MallocState.large_bins malloc_state) results).
Proof.
  split; intros tr bins H;
    apply parse_entries_ok in H as (results & -> & -> & Hall); simpl;
    (split; [rewrite length_map; symmetry; by eapply Forall2_length|]);
    by exists results.
Qed.

Lemma X4_one_bin_per_entry_witness :
  exists bins,
    BinParser.parse_small_bins_from_malloc_state 2 (Fixtures.bin_parser Fixtures.fd_is_head)
      Cases.two_small_bins = Some ([ParseChunk 0xC000], Ok bins) /\
    length bins = length (MallocState.small_bins Cases.two_small_bins) /\
    exists results : list (list event * Bin.t),
      bins = map snd results /\
      [ParseChunk 0xC000] = concat (map fst results) /\
      Forall2 (fun entry p =>
                 BinParser._parse_from_bin_entry 2 (Fixtures.bin_parser Fixtures.fd_is_head)
                   entry = Some (p.1, Ok p.2))
              (MallocState.small_bins Cases.two_small_bins) results.
Proof.
  eexists. split; [vm_compute; reflexivity|].
  match goal with |- length ?bins = _ /\ _ =>
    apply (proj1 (X4_one_bin_per_entry (Fixtures.bin_parser Fixtures.fd_is_head) 2
                    Cases.two_small_bins) [ParseChunk 0xC000] bins)
  end.
  vm_compute. reflexivity.
Defined.

(** X5. The parse of the small bins (and of the large bins) stops at the
    first entry whose walk raises: the exception comes out, after the
    calls of the walks up to that one, and the entries that follow are not
    walked, whatever they are. *)
Theorem X5_first_failure_aborts (self : BinParser.t) (fuel : nat)
    (malloc_state : MallocState.t) (pre post : list BinEntry.t) (bad : BinEntry.t)
    (results : list (list event * Bin.t)) (tr_bad : list event) (e : exn) :
  Forall2 (fun entry p =>
             BinParser._parse_from_bin_entry fuel self entry = Some (p.1, Ok p.2))
          pre results ->
  BinParser._parse_from_bin_entry fuel self bad = Some (tr_bad, Raise e) ->
  (MallocState.small_bins malloc_state = pre ++ bad :: post ->
   BinParser.parse_small_bins_from_malloc_state fuel self malloc_state =
     Some (concat (map fst results) ++ tr_bad, Raise e)) /\
  (MallocState.large_bins malloc_state = pre ++ bad :: post ->
   BinParser.parse_large_bins_from_malloc_state fuel self malloc_state =
     Some (concat (map fst results) ++ tr_bad, Raise e)).
Proof.
  intros Hpre Hbad.
  split; intros Heq;
    unfold BinParser.parse_small_bins_from_malloc_state,
      BinParser.parse_large_bins_from_malloc_state;
    rewrite Heq; by rewrite (parse_entries_abort fuel self pre results bad post [] []
                               tr_bad e Hpre Hbad).
Qed.

Lemma X5_first_failure_aborts_witness :
  BinParser.parse_small_bins_from_malloc_state 1 (BinParser.__init__ Cases.fussy_parser)
    Cases.fussy_small_bins =
  Some (concat (map fst [([], BinFactory.create (Cases.small_entry 0x7020 0x7010) [])]) ++
        [ParseChunk 0xC000], Raise OtherError).
Proof.
  apply (X5_first_failure_aborts (BinParser.__init__ Cases.fussy_parser) 1
           Cases.fussy_small_bins [Cases.small_entry 0x7020 0x7010]
           [Cases.small_entry 0x7030 0xD000] (Cases.small_entry 0x7010 0xC000)
           [([], BinFactory.create (Cases.small_entry 0x7020 0x7010) [])]
           [ParseChunk 0xC000] OtherError).
  - repeat constructor.
  - reflexivity.
  - reflexivity.
Defined.

(** X6. The three methods that parse the bins of a malloc state
    terminate: when the chunk parser succeeds at the addresses of a finite
    set only, any fuel above the size of that set gives their result,
    however many entries the malloc state has. *)
Theorem X6_bins_of_malloc_state_terminate (self : BinParser.t) (D : gset Z)
    (malloc_state : MallocState.t) :
  (forall a c, parse_of self a = Ok c -> a ∈ D) ->
  exists unsorted small large,
    forall fuel, (size D < fuel)%nat ->
      BinParser.parse_unsorted_bin_from_malloc_state fuel self malloc_state = Some unsorted /\
      BinParser.parse_small_bins_from_malloc_state fuel self malloc_state = Some small /\
      BinParser.parse_large_bins_from_malloc_state fuel self malloc_state = Some large.
Proof.
  intros HD.
  destruct (parse_from_bin_entry_terminates self D
              (MallocState.unsorted_bin malloc_state) HD) as [ru Hu].
  destruct (parse_entries_terminates self D HD
              (MallocState.small_bins malloc_state) [] []) as [rs Hs].
  destruct (parse_entries_terminates self D HD
              (MallocState.large_bins malloc_state) [] []) as [rl Hl].
  exists ru, rs, rl. intros fuel Hfuel.
  split; [by apply Hu|]. split; [by apply Hs|by apply Hl].
Qed.

Lemma X6_bins_of_malloc_state_terminate_witness :
  exists unsorted small large,
    forall fuel, (size (dom Fixtures.fd_is_head) < fuel)%nat ->
      BinParser.parse_unsorted_bin_from_malloc_state fuel
        (Fixtures.bin_parser Fixtures.fd_is_head) Cases.two_small_bins = Some unsorted /\
      BinParser.parse_small_bins_from_malloc_state fuel
        (Fixtures.bin_parser Fixtures.fd_is_head) Cases.two_small_bins = Some small /\
      BinParser.parse_large_bins_from_malloc_state fuel
        (Fixtures.bin_parser Fixtures.fd_is_head) Cases.two_small_bins = Some large.
Proof.
  apply (X6_bins_of_malloc_state_terminate (Fixtures.bin_parser Fixtures.fd_is_head)
           (dom Fixtures.fd_is_head) Cases.two_small_bins).
  intros a c. apply parse_readable.
Defined.

(** * The rest of heap_explorer.py *)

(** ** The [for] loops over the arenas *)

Lemma for_each_ok {A B} (f : A -> M B) : forall xs acc tr ys,
  for_each f xs acc = (tr, Ok ys) ->
  exists results : list (list event * B),
    ys = acc ++ map snd results /\
    tr = concat (map fst results) /\
    Forall2 (fun x p => f x = (p.1, Ok p.2)) xs results.
Proof.
  induction xs as [|x xs IH]; intros acc tr ys H; simpl in H.
  - injection H as <- <-. exists []. simpl. by rewrite app_nil_r.
  - unfold bind in H. destruct (f x) as [tr1 [y|e]] eqn:Hx; [|done].
    destruct (for_each f xs (acc ++ [y])) as [tr2 r2] eqn:Hrest.
    injection H as <- ->. apply IH in Hrest as (results & -> & -> & Hall).
    exists ((tr1, y) :: results). simpl. rewrite <- app_assoc.
    split; [done|]. split; [done|]. by constructor.
Qed.

Lemma for_each_abort {A B} (f : A -> M B) : forall pre (results : list (list event * B))
    bad post acc tr_bad e,
  Forall2 (fun x p => f x = (p.1, Ok p.2)) pre results ->
  f bad = (tr_bad, Raise e) ->
  for_each f (pre ++ bad :: post) acc = (concat (map fst results) ++ tr_bad, Raise e).
Proof.
  induction pre as [|x pre IH]; intros results bad post acc tr_bad e Hpre Hbad.
  - apply Forall2_nil_inv_l in Hpre as ->. simpl. by rewrite Hbad.
  - apply Forall2_cons_inv_l in Hpre as ([tr1 y] & results' & Hx & Hpre & ->).
    simpl in *. rewrite Hx. simpl.
    rewrite (IH results' bad post _ tr_bad e Hpre Hbad). by rewrite <- app_assoc.
Qed.

Lemma for_each_fuel_ok {A B} (f : A -> option (M B)) : forall xs acc tr ys,
  Accessors.for_each_fuel f xs acc = Some (tr, Ok ys) ->
  exists results : list (list event * B),
    ys = acc ++ map snd results /\
    tr = concat (map fst results) /\
    Forall2 (fun x p => f x = Some (p.1, Ok p.2)) xs results.
Proof.
  induction xs as [|x xs IH]; intros acc tr ys H; simpl in H.
  - injection H as <- <-. exists []. simpl. by rewrite app_nil_r.
  - destruct (f x) as [[tr1 [y|e]]|] eqn:Hx; [|done|done].
    destruct (Accessors.for_each_fuel f xs (acc ++ [y])) as [[tr2 r2]|] eqn:Hrest; [|done].
    injection H as <- ->. apply IH in Hrest as (results & -> & -> & Hall).
    exists ((tr1, y) :: results). simpl. rewrite <- app_assoc.
    split; [done|]. split; [done|]. by constructor.
Qed.

(** The state an index selects, for the indexes that select one. *)
Lemma malloc_state_at self tr states (i : nat) ms :
  HeapExplorer.all_arenas_malloc_states self = (tr, Ok states) ->
  states !! i = Some ms ->
  HeapExplorer.malloc_state self (Z.of_nat i) = (tr, Ok ms) /\
  HeapExplorer.malloc_state self (Z.of_nat i - Z.of_nat (length states)) = (tr, Ok ms).
Proof.
  intros Hall Hi. pose proof (lookup_lt_Some _ _ _ Hi) as Hlt.
  rewrite !(malloc_state_eq self _ tr states Hall). split; f_equal.
  - destruct (list_getitem_nonneg states (Z.of_nat i)) as (x & Hx & ->); [lia|].
    rewrite Nat2Z.id in Hx. congruence.
  - destruct (list_getitem_negative states (Z.of_nat i - Z.of_nat (length states)))
      as (x & Hx & ->); [lia|].
    replace (Z.to_nat _) with i in Hx by lia. congruence.
Qed.

Lemma malloc_state_out_of_range self tr states i :
  HeapExplorer.all_arenas_malloc_states self = (tr, Ok states) ->
  Z.of_nat (length states) <= i \/ i < - Z.of_nat (length states) ->
  HeapExplorer.malloc_state self i = (tr, Raise IndexError).
Proof.
  intros Hall Hi. rewrite (malloc_state_eq self _ tr states Hall).
  by rewrite list_getitem_out_of_range.
Qed.

(** X7. An index outside [-n .. n-1], with [n] the number of arenas, makes
    every accessor of one arena fail with an index error before it parses
    anything of an arena: the only call made is the enumeration of the
    malloc states. This holds for [heap], [unsorted_bin], [small_bins],
    [large_bins] and, when tcaches are enabled, [tcaches]. *)
Theorem X7_index_checked_before_parsing (self : HeapExplorer.t) (tr : list event)
    (states : list MallocState.t) (arena_index : Z) :
  HeapExplorer.all_arenas_malloc_states self = (tr, Ok states) ->
  Z.of_nat (length states) <= arena_index \/ arena_index < - Z.of_nat (length states) ->
  tr = [ParseAllMallocStates (HeapExplorer._main_arena_address self)] /\
  HeapExplorer.heap self arena_index = (tr, Raise IndexError) /\
  (forall fuel, Accessors.unsorted_bin fuel self arena_index = Some (tr, Raise IndexError)) /\
  (forall fuel, Accessors.small_bins fuel self arena_index = Some (tr, Raise IndexError)) /\
  (forall fuel, Accessors.large_bins fuel self arena_index = Some (tr, Raise IndexError)) /\
  (HeapExplorer.tcaches_enabled self = true ->
   HeapExplorer.tcaches self arena_index = (tr, Raise IndexError)).
Proof.
  intros Hall Hi.
  pose proof (malloc_state_out_of_range self tr states arena_index Hall Hi) as Hms.
  split.
  { unfold HeapExplorer.all_arenas_malloc_states, call in Hall. by injection Hall as <- _. }
  split; [unfold HeapExplorer.heap; by rewrite Hms|].
  split; [intros fuel; unfold Accessors.unsorted_bin; by rewrite Hms|].
  split; [intros fuel; unfold Accessors.small_bins; by rewrite Hms|].
  split; [intros fuel; unfold Accessors.large_bins; by rewrite Hms|].
  intros Hen. unfold HeapExplorer.tcaches. by rewrite Hen, Hms.
Qed.

Lemma X7_index_checked_before_parsing_witness :
  exists self,
    Fixtures.explorer (Fixtures.target [2; 31] Fixtures.two_ring 0x250) = Some self /\
    HeapExplorer.heap self 2 = ([ParseAllMallocStates 0x6000], Raise IndexError) /\
    forall fuel,
      Accessors.unsorted_bin fuel self 2 =
        Some ([ParseAllMallocStates 0x6000], Raise IndexError).
Proof.
  eexists. split; [vm_compute; reflexivity|].
  match goal with |- HeapExplorer.heap ?s _ = _ /\ _ =>
    pose proof (X7_index_checked_before_parsing s [ParseAllMallocStates 0x6000]
                  [Fixtures.arena 0x6000 0x9000; Fixtures.arena 0x9000 0x6000] 2) as H
  end.
  destruct H as (_ & Hheap & Hunsorted & _).
  - vm_compute. reflexivity.
  - left. simpl. lia.
  - split; [exact Hheap|exact Hunsorted].
Defined.

(** X8. [all_arenas_heaps()] agrees with [heap(i)]: when it returns, it
    returns one heap per arena, and the heap at position [i] is the one
    [heap(i)] returns, which is also the one [heap(i - n)] returns with [n]
    the number of arenas. *)
Theorem X8_all_arenas_heaps_agree (self : HeapExplorer.t) (tr : list event)
    (heaps : list Heap.t) :
  Accessors.all_arenas_heaps self = (tr, Ok heaps) ->
  snd (HeapExplorer.arenas_count self) = Ok (Z.of_nat (length heaps)) /\
  forall (i : nat) h,
    heaps !! i = Some h ->
    snd (HeapExplorer.heap self (Z.of_nat i)) = Ok h /\
    snd (HeapExplorer.heap self (Z.of_nat i - Z.of_nat (length heaps))) = Ok h.
Proof.
  unfold Accessors.all_arenas_heaps. intros H.
  destruct (HeapExplorer.all_arenas_malloc_states self) as [tr0 [states|e]] eqn:Hall;
    simpl in H; [|done].
  destruct (for_each _ states []) as [tr1 r1] eqn:Hfor. injection H as <- ->.
  apply for_each_ok in Hfor as (results & -> & -> & Hres). simpl.
  pose proof (Forall2_length _ _ _ Hres) as Hlen.
  split.
  { rewrite (proj1 (arenas_count_eq self) _ _ Hall). simpl.
    by rewrite length_map, Hlen. }
  intros i h Hi. rewrite list_lookup_fmap in Hi.
  destruct (results !! i) as [[tr_i h']|] eqn:Hri; [|done]. injection Hi as ->.
  destruct (Forall2_lookup_r _ _ _ _ _ Hres Hri) as (ms & Hms & Hparse).
  destruct (malloc_state_at self tr0 states i ms Hall Hms) as [Hpos Hneg].
  unfold Accessors.parse_heap, call in Hparse. simpl in Hparse.
  injection Hparse as _ Hparse.
  rewrite length_map, <- Hlen. unfold HeapExplorer.heap. rewrite Hpos, Hneg.
  unfold bind, call. by rewrite Hparse.
Qed.

Lemma X8_all_arenas_heaps_agree_witness :
  exists self heaps,
    Fixtures.explorer (Fixtures.target [2; 31] Fixtures.two_ring 0x250) = Some self /\
    snd (Accessors.all_arenas_heaps self) = Ok heaps /\
    snd (HeapExplorer.arenas_count self) = Ok (Z.of_nat (length heaps)).
Proof.
  eexists _, _. split; [vm_compute; reflexivity|]. split; [vm_compute; reflexivity|].
  match goal with |- snd (HeapExplorer.arenas_count ?s) = Ok (Z.of_nat (length ?hs)) =>
    apply (fun H => proj1 (X8_all_arenas_heaps_agree s
             [ParseAllMallocStates 0x6000; ParseHeap (Fixtures.arena 0x6000 0x9000);
              ParseHeap (Fixtures.arena 0x9000 0x6000)] hs H))
  end.
  vm_compute. reflexivity.
Defined.

(** X9. [all_arenas_heaps()] stops at the first arena whose heap cannot
    be parsed: the exception of the heap parser comes out, and the heaps
    of the arenas after that one are not parsed. *)
Theorem X9_all_arenas_heaps_abort (self : HeapExplorer.t) (tr : list event)
    (pre post : list MallocState.t) (bad : MallocState.t)
    (heaps : list Heap.t) (e : exn) :
  HeapExplorer.all_arenas_malloc_states self = (tr, Ok (pre ++ bad :: post)) ->
  Forall2 (fun ms h =>
             HeapParser.parse_from_malloc_state (HeapExplorer._heap_parser self) ms = Ok h)
          pre heaps ->
  HeapParser.parse_from_malloc_state (HeapExplorer._heap_parser self) bad = Raise e ->
  Accessors.all_arenas_heaps self = (tr ++ map ParseHeap (pre ++ [bad]), Raise e).
Proof.
  intros Hall Hpre Hbad. unfold Accessors.all_arenas_heaps. rewrite Hall. simpl.
  rewrite (for_each_abort (Accessors.parse_heap self) pre
             (zip_with (fun ms h => ([ParseHeap ms], h)) pre heaps) bad post []
             [ParseHeap bad] e).
  - f_equal. f_equal. rewrite map_app. simpl. f_equal.
    clear Hall. induction Hpre as [|ms h pre heaps _ _ IH]; simpl; [done|]. by rewrite IH.
  - clear Hall. induction Hpre as [|ms h pre heaps Hms _ IH]; simpl; constructor; [|done].
    simpl. unfold Accessors.parse_heap, call. by rewrite Hms.
  - unfold Accessors.parse_heap, call. by rewrite Hbad.
Qed.

Lemma X9_all_arenas_heaps_abort_witness :
  exists self,
    Fixtures.explorer Cases.second_heap_unreadable = Some self /\
    Accessors.all_arenas_heaps self =
      ([ParseAllMallocStates 0x6000] ++
       map ParseHeap ([Fixtures.arena 0x6000 0x9000] ++ [Fixtures.arena 0x9000 0x6000]),
       Raise OSError).
Proof.
  eexists. split; [vm_compute; reflexivity|].
  match goal with |- Accessors.all_arenas_heaps ?s = _ =>
    apply (X9_all_arenas_heaps_abort s [ParseAllMallocStates 0x6000]
             [Fixtures.arena 0x6000 0x9000] [] (Fixtures.arena 0x9000 0x6000)
             [{| Heap.chunks := [Fixtures.chunk_of_size 0x10000 0x250];
                 Heap.top := None |}] OSError)
  end.
  - vm_compute. reflexivity.
  - repeat constructor.
  - reflexivity.
Defined.

(** ** The accessors of the bins *)

Lemma all_arenas_fuel_agree {B} (f : MallocState.t -> option (M B)) self tr (ys : list B) :
  Accessors.bind_fuel (HeapExplorer.all_arenas_malloc_states self)
    (fun malloc_states => Accessors.for_each_fuel f malloc_states []) = Some (tr, Ok ys) ->
  snd (HeapExplorer.arenas_count self) = Ok (Z.of_nat (length ys)) /\
  forall (i : nat) y,
    ys !! i = Some y ->
    (exists tr_i,
       Accessors.bind_fuel (HeapExplorer.malloc_state self (Z.of_nat i)) f =
         Some (tr_i, Ok y)) /\
    (exists tr_i,
       Accessors.bind_fuel
         (HeapExplorer.malloc_state self (Z.of_nat i - Z.of_nat (length ys))) f =
         Some (tr_i, Ok y)).
Proof.
  unfold Accessors.bind_fuel at 1. intros H.
  destruct (HeapExplorer.all_arenas_malloc_states self) as [tr0 [states|e]] eqn:Hall;
    [|done].
  destruct (Accessors.for_each_fuel f states []) as [[tr1 r1]|] eqn:Hfor; [|done].
  injection H as <- ->.
  apply for_each_fuel_ok in Hfor as (results & -> & -> & Hres). simpl.
  pose proof (Forall2_length _ _ _ Hres) as Hlen.
  split.
  { rewrite (proj1 (arenas_count_eq self) _ _ Hall). simpl.
    by rewrite length_map, Hlen. }
  intros i y Hi. rewrite list_lookup_fmap in Hi.
  destruct (results !! i) as [[tr_i y']|] eqn:Hri; [|done]. injection Hi as ->.
  destruct (Forall2_lookup_r _ _ _ _ _ Hres Hri) as (ms & Hms & Hparse).
  destruct (malloc_state_at self tr0 states i ms Hall Hms) as [Hpos Hneg].
  rewrite length_map, <- Hlen, Hpos, Hneg. simpl in *. rewrite Hparse.
  split; by eexists.
Qed.

(** X10. The [all_arenas_...] accessors of the bins agree with the
    accessors of one arena: when [all_arenas_unsorted_bins()] returns, it
    returns one bin per arena and the bin at position [i] is the one
    [unsorted_bin(i)] returns, also under the negative index [i - n]; the
    same holds for the small and the large bins. *)
Theorem X10_all_arenas_bins_agree (self : HeapExplorer.t) (fuel : nat) :
  (forall tr bins,
     Accessors.all_arenas_unsorted_bins fuel self = Some (tr, Ok bins) ->
     snd (HeapExplorer.arenas_count self) = Ok (Z.of_nat (length bins)) /\
     forall (i : nat) b,
       bins !! i = Some b ->
       (exists tr_i, Accessors.unsorted_bin fuel self (Z.of_nat i) = Some (tr_i, Ok b)) /\
       (exists tr_i, Accessors.unsorted_bin fuel self
                       (Z.of_nat i - Z.of_nat (length bins)) = Some (tr_i, Ok b))) /\
  (forall tr bins,
     Accessors.all_arenas_small_bins fuel self = Some (tr, Ok bins) ->
     snd (HeapExplorer.arenas_count self) = Ok (Z.of_nat (length bins)) /\
     forall (i : nat) b,
       bins !! i = Some b ->
       (exists tr_i, Accessors.small_bins fuel self (Z.of_nat i) = Some (tr_i, Ok b)) /\
       (exists tr_i, Accessors.small_bins fuel self
                       (Z.of_nat i - Z.of_nat (length bins)) = Some (tr_i, Ok b))) /\
  (forall tr bins,
     Accessors.all_arenas_large_bins fuel self = Some (tr, Ok bins) ->
     snd (HeapExplorer.arenas_count self) = Ok (Z.of_nat (length bins)) /\
     forall (i : nat) b,
       bins !! i = Some b ->
       (exists tr_i, Accessors.large_bins fuel self (Z.of_nat i) = Some (tr_i, Ok b)) /\
       (exists tr_i, Accessors.large_bins fuel self
                       (Z.of_nat i - Z.of_nat (length bins)) = Some (tr_i, Ok b))).
Proof.
  split; [|split]; intros tr bins H; by apply all_arenas_fuel_agree in H.
Qed.

Lemma X10_all_arenas_bins_agree_witness :
  exists self bins,
    Fixtures.explorer (Fixtures.target [2; 31] Fixtures.two_ring 0x250) = Some self /\
    Accessors.all_arenas_unsorted_bins 1 self = Some ([ParseAllMallocStates 0x6000], Ok bins) /\
    snd (HeapExplorer.arenas_count self) = Ok (Z.of_nat (length bins)).
Proof.
  eexists _, _. split; [vm_compute; reflexivity|]. split; [vm_compute; reflexivity|].
  match goal with |- snd (HeapExplorer.arenas_count ?s) = Ok (Z.of_nat (length ?bs)) =>
    apply (fun H => proj1 (proj1 (X10_all_arenas_bins_agree s 1)
                             [ParseAllMallocStates 0x6000] bs H))
  end.
  vm_compute. reflexivity.
Defined.

(** X11. [all_arenas_tcaches()] returns only when tcaches are enabled, and
    then agrees with [tcaches(i)]: one entry per arena, the entry at
    position [i] being what [tcaches(i)] returns. *)
Theorem X11_all_arenas_tcaches_agree (self : HeapExplorer.t) (tr : list event)
    (all_tcaches : list Tcaches.t) :
  HeapExplorer.all_arenas_tcaches self = (tr, Ok all_tcaches) ->
  HeapExplorer.tcaches_enabled self = true /\
  snd (HeapExplorer.arenas_count self) = Ok (Z.of_nat (length all_tcaches)) /\
  forall (i : nat) t,
    all_tcaches !! i = Some t ->
    snd (HeapExplorer.tcaches self (Z.of_nat i)) = Ok t /\
    snd (HeapExplorer.tcaches self (Z.of_nat i - Z.of_nat (length all_tcaches))) = Ok t.
Proof.
  unfold HeapExplorer.all_arenas_tcaches, HeapExplorer.tcaches.
  destruct (HeapExplorer.tcaches_enabled self); cbn [negb]; [|done]. intros H.
  split; [done|]. unfold bind at 1 in H.
  destruct (HeapExplorer.all_arenas_malloc_states self) as [tr0 [states|e]] eqn:Hall;
    [|done].
  destruct (for_each _ states []) as [tr1 r1] eqn:Hfor. injection H as <- ->.
  apply for_each_ok in Hfor as (results & -> & -> & Hres). simpl.
  pose proof (Forall2_length _ _ _ Hres) as Hlen.
  split.
  { rewrite (proj1 (arenas_count_eq self) _ _ Hall). simpl.
    by rewrite length_map, Hlen. }
  intros i t Hi. rewrite list_lookup_fmap in Hi.
  destruct (results !! i) as [[tr_i t']|] eqn:Hri; [|done]. injection Hi as ->.
  destruct (Forall2_lookup_r _ _ _ _ _ Hres Hri) as (ms & Hms & Hparse).
  destruct (malloc_state_at self tr0 states i ms Hall Hms) as [Hpos Hneg].
  rewrite length_map, <- Hlen, Hpos, Hneg. unfold bind. simpl in Hparse.
  by rewrite Hparse.
Qed.

Lemma X11_all_arenas_tcaches_agree_witness :
  exists self all_tcaches,
    Fixtures.explorer (Fixtures.target [2; 31] Fixtures.two_ring 0x250) = Some self /\
    snd (HeapExplorer.all_arenas_tcaches self) = Ok all_tcaches /\
    HeapExplorer.tcaches_enabled self = true.
Proof.
  eexists _, _. split; [vm_compute; reflexivity|]. split; [vm_compute; reflexivity|].
  match goal with |- HeapExplorer.tcaches_enabled ?s = true =>
    apply (fun H => proj1 (X11_all_arenas_tcaches_agree s
             [ParseAllMallocStates 0x6000; ParseTcaches (Fixtures.arena 0x6000 0x9000);
              ParseTcaches (Fixtures.arena 0x9000 0x6000)]
             [Tcaches.mk []; Tcaches.mk []] H))
  end.
  vm_compute. reflexivity.
Defined.

(** X12. What [__init__] does on a libc that is not lower than 2.26. It
    enumerates the malloc states and parses the heap of the first one, and
    nothing else. It fails with an index error when there is no malloc
    state or when that heap has no chunk; it fails with the exception of
    the malloc state parser or of the heap parser when one of them raises;
    otherwise it returns an explorer whose [tcaches_enabled] tells whether
    the first chunk has size [P*64 + 0x50]. *)
Theorem X12_init_outcomes (c : Collaborators.t) :
  ProcessInformer.is_libc_version_lower_than (Collaborators.process_informer c) [2; 26]
    = false ->
  (MallocStateParser.parse_all_from_main_malloc_state_address
     (Collaborators.malloc_state_parser c)
     (ProcessInformer.main_arena_address (Collaborators.process_informer c)) = Ok [] ->
   HeapExplorer.__init__ c =
     ([ParseAllMallocStates
         (ProcessInformer.main_arena_address (Collaborators.process_informer c))],
      Raise IndexError)) /\
  (forall e,
     MallocStateParser.parse_all_from_main_malloc_state_address
       (Collaborators.malloc_state_parser c)
       (ProcessInformer.main_arena_address (Collaborators.process_informer c)) = Raise e ->
     HeapExplorer.__init__ c =
       ([ParseAllMallocStates
           (ProcessInformer.main_arena_address (Collaborators.process_informer c))],
        Raise e)) /\
  (forall ms rest,
     MallocStateParser.parse_all_from_main_malloc_state_address
       (Collaborators.malloc_state_parser c)
       (ProcessInformer.main_arena_address (Collaborators.process_informer c))
       = Ok (ms :: rest) ->
     (forall e,
        HeapParser.parse_from_malloc_state (Collaborators.heap_parser c) ms = Raise e ->
        HeapExplorer.__init__ c =
          ([ParseAllMallocStates
              (ProcessInformer.main_arena_address (Collaborators.process_informer c));
            ParseHeap ms], Raise e)) /\
     (forall heap,
        HeapParser.parse_from_malloc_state (Collaborators.heap_parser c) ms = Ok heap ->
        Heap.chunks heap = [] ->
        HeapExplorer.__init__ c =
          ([ParseAllMallocStates
              (ProcessInformer.main_arena_address (Collaborators.process_informer c));
            ParseHeap ms], Raise IndexError)) /\
     (forall heap first others,
        HeapParser.parse_from_malloc_state (Collaborators.heap_parser c) ms = Ok heap ->
        Heap.chunks heap = first :: others ->
        exists self,
          HeapExplorer.__init__ c =
            ([ParseAllMallocStates
                (ProcessInformer.main_arena_address (Collaborators.process_informer c));
              ParseHeap ms], Ok self) /\
          HeapExplorer.tcaches_enabled self =
            (ProcessInformer.pointer_size (Collaborators.process_informer c) * 64 + 0x50
             =? MallocChunk.size first))).
Proof.
  intros Hver.
  unfold HeapExplorer.__init__, HeapExplorer._are_tcaches_enabled, HeapExplorer.heap,
    HeapExplorer.malloc_state, HeapExplorer.all_arenas_malloc_states, call.
  cbn [HeapExplorer._process_informer HeapExplorer._main_arena_address
       HeapExplorer._malloc_state_parser HeapExplorer._heap_parser
       HeapExplorer._pointer_size].
  rewrite Hver.
  split; [intros ->; reflexivity|].
  split; [intros e ->; reflexivity|].
  intros ms rest ->.
  split; [intros e He; simpl; by rewrite He|].
  split; [intros heap Hh Hc; simpl; rewrite Hh; simpl; by rewrite Hc|].
  intros heap first others Hh Hc. simpl. rewrite Hh. simpl. rewrite Hc. simpl.
  eexists. split; reflexivity.
Qed.

Lemma X12_init_outcomes_witness :
  HeapExplorer.__init__ Cases.empty_heap =
    ([ParseAllMallocStates 0x6000; ParseHeap (Fixtures.arena 0x6000 0x9000)],
     Raise IndexError) /\
  HeapExplorer.__init__ Cases.no_arena = ([ParseAllMallocStates 0x6000], Raise IndexError).
Proof.
  split.
  - apply (fun Hver Hall Hh Hc =>
      proj1 (proj2 (proj2 (proj2 (X12_init_outcomes Cases.empty_heap Hver))
                      (Fixtures.arena 0x6000 0x9000) [Fixtures.arena 0x9000 0x6000] Hall))
            (Heap.mk [] None) Hh Hc).
    + reflexivity.
    + vm_compute. reflexivity.
    + reflexivity.
    + reflexivity.
  - apply (fun Hver Hall => proj1 (X12_init_outcomes Cases.no_arena Hver) Hall).
    + reflexivity.
    + vm_compute. reflexivity.
Defined.


(** * The rest of bin.py *)

(** ** The shape of a formatted integer *)

Lemma decimal_first_char d :
  exists c t,
    DecimalString.NilZero.string_of_uint d = String c t /\
    c <> "-"%char /\ c <> "]"%char.
Proof.
  destruct d; simpl; eexists _, _; (split; [reflexivity|]); split; done.
Qed.

(** [str(z)] starts with a digit, or with a minus sign and then a digit. *)
Lemma str_int_shape z :
  exists c t,
    PyFormat.str_int z = String c t /\
    (c <> "-"%char \/ exists d t', t = String d t' /\ d <> "]"%char).
Proof.
  unfold PyFormat.str_int. destruct z as [|p|p]; simpl.
  - eexists _, _. split; [reflexivity|]. by left.
  - destruct (decimal_first_char (Pos.to_uint p)) as (c & t & -> & Hc & _).
    exists c, t. split; [done|]. by left.
  - destruct (decimal_first_char (Pos.to_uint p)) as (c & t & -> & _ & Hc).
    eexists _, _. split; [reflexivity|]. right. by exists c, t.
Qed.

(** ** The loops of [summary] and of [_format_bins] *)

Lemma summary_loop_acc start_index : forall bins i acc,
  Bins.summary_loop start_index i bins acc =
  acc ++ Bins.summary_loop start_index i bins [].
Proof.
  induction bins as [|b bins IH]; intros i acc; simpl; [by rewrite app_nil_r|].
  destruct (0 <? Bin.__len__ b).
  - rewrite (IH _ (acc ++ _)), (IH _ [_]). by rewrite <- app_assoc.
  - apply IH.
Qed.

Lemma format_loop_acc bin_str start_index : forall bins i acc,
  Bins.format_loop bin_str start_index i bins acc =
  acc ++ Bins.format_loop bin_str start_index i bins [].
Proof.
  induction bins as [|b bins IH]; intros i acc; simpl; [by rewrite app_nil_r|].
  destruct (0 <? Bin.__len__ b).
  - rewrite (IH _ (acc ++ _)), (IH _ [_]). by rewrite <- app_assoc.
  - apply IH.
Qed.

Lemma bin_len_zero b : (0 <? Bin.__len__ b) = false <-> Bin.chunks b = [].
Proof.
  unfold Bin.__len__, Bin.chunks. destruct (Bin.malloc_chunks b) as [|c cs].
  - done.
  - split; [|done]. intros H%Z.ltb_ge. simpl length in H. lia.
Qed.

(** The lines of [summary]: none when every bin is empty, and otherwise
    a first line that is the line of some bin. *)
Lemma summary_loop_cases start_index : forall bins i,
  (Forall (fun b => Bin.chunks b = []) bins /\
   Bins.summary_loop start_index i bins [] = []) \/
  (~ Forall (fun b => Bin.chunks b = []) bins /\
   exists j b ls,
     Bins.summary_loop start_index i bins [] = Bins.summary_line start_index j b :: ls).
Proof.
  induction bins as [|b bins IH]; intros i; simpl.
  - left. by split.
  - destruct (0 <? Bin.__len__ b) eqn:Hb.
    + right. split.
      * intros Hall. apply Forall_cons in Hall as [Hall _].
        apply bin_len_zero in Hall. congruence.
      * rewrite summary_loop_acc. simpl. by eexists _, _, _.
    + apply bin_len_zero in Hb.
      destruct (IH (i + 1)) as [[Hall ->]|[Hall Hex]].
      * left. split; [by constructor|done].
      * right. split; [|done]. intros Hall'. apply Hall.
        by apply Forall_cons in Hall' as [_ ?].
Qed.

Lemma format_loop_cases bin_str start_index : forall bins i,
  (Forall (fun b => Bin.chunks b = []) bins /\
   Bins.format_loop bin_str start_index i bins [] = []) \/
  (~ Forall (fun b => Bin.chunks b = []) bins /\
   exists j b ls,
     Bins.format_loop bin_str start_index i bins [] =
       Bins.format_line bin_str start_index j b :: ls).
Proof.
  induction bins as [|b bins IH]; intros i; simpl.
  - left. by split.
  - destruct (0 <? Bin.__len__ b) eqn:Hb.
    + right. split.
      * intros Hall. apply Forall_cons in Hall as [Hall _].
        apply bin_len_zero in Hall. congruence.
      * rewrite format_loop_acc. simpl. by eexists _, _, _.
    + apply bin_len_zero in Hb.
      destruct (IH (i + 1)) as [[Hall ->]|[Hall Hex]].
      * left. split; [by constructor|done].
      * right. split; [|done]. intros Hall'. apply Hall.
        by apply Forall_cons in Hall' as [_ ?].
Qed.

(** Lines joined after the line of a bin never read as the placeholder. *)
Lemma summary_lines_not_placeholder start_index j b ls :
  PyFormat.join PyFormat.newline (Bins.summary_line start_index j b :: ls) <>
  Bins.no_chunks_found.
Proof.
  unfold PyFormat.join, Bins.summary_line, Bins.no_chunks_found.
  destruct (str_int_shape (start_index + j)) as (c & t & -> & Hshape).
  destruct ls as [|l ls]; simpl; intros [= -> Ht];
    (destruct Hshape as [Hc|(d & t' & -> & Hd)]; [done|]);
    simpl in Ht; by injection Ht as ->.
Qed.

Lemma format_lines_not_placeholder bin_str start_index j b ls :
  PyFormat.join PyFormat.newline (Bins.format_line bin_str start_index j b :: ls) <>
  Bins.no_chunks_found.
Proof.
  unfold PyFormat.join, Bins.format_line, Bins.no_chunks_found.
  destruct ls as [|l ls]; simpl; intros [=].
Qed.

(** X13. [summary] returns the text ["    [-] No chunks found"] if and
    only if every bin of the sequence is empty (in particular when there
    is no bin), whatever [start_index] is; and so does [_format_bins],
    whatever the text of a bin is. *)
Theorem X13_placeholder_iff_all_empty (self : Bins.t) (start_index : Z) :
  (Bins.summary self start_index = Bins.no_chunks_found <->
   Forall (fun b => Bin.chunks b = []) (Bins.bins self)) /\
  (forall bin_str,
     Bins._format_bins bin_str self start_index = Bins.no_chunks_found <->
     Forall (fun b => Bin.chunks b = []) (Bins.bins self)).
Proof.
  split.
  - unfold Bins.summary.
    destruct (summary_loop_cases start_index (Bins.bins self) 0)
      as [[Hall ->]|[Hall (j & b & ls & ->)]]; [done|].
    split; [|done]. intros H. by apply summary_lines_not_placeholder in H.
  - intros bin_str. unfold Bins._format_bins.
    destruct (format_loop_cases bin_str start_index (Bins.bins self) 0)
      as [[Hall ->]|[Hall (j & b & ls & ->)]]; [done|].
    split; [|done]. intros H. by apply format_lines_not_placeholder in H.
Qed.




(** ** [Bin.__str__] *)

Section bin_str.
Variable _name : Bin.t -> string.
Variable format_flags_as_str : MallocChunk.t -> string.

Lemma chunks_loop_raw g : 
  (forall v c, format_flags_as_str (set_fd_demangled v c) = format_flags_as_str c) ->
  forall chunks msg next_address,
    BinStr.chunks_loop format_flags_as_str false (map (remangle g) chunks) msg next_address =
    BinStr.chunks_loop format_flags_as_str false chunks msg next_address.
Proof.
  intros Hflags. induction chunks as [|c chunks IH]; intros msg next_address; [done|].
  simpl. unfold remangle at 1 2 3. rewrite Hflags. simpl. apply IH.
Qed.

Lemma chunks_loop_demangled g : 
  (forall v c, format_flags_as_str (set_fd v c) = format_flags_as_str c) ->
  forall chunks msg next_address,
    BinStr.chunks_loop format_flags_as_str true
      (map (fun c => set_fd (g c) c) chunks) msg next_address =
    BinStr.chunks_loop format_flags_as_str true chunks msg next_address.
Proof.
  intros Hflags. induction chunks as [|c chunks IH]; intros msg next_address; [done|].
  simpl. rewrite Hflags. apply IH.
Qed.
End bin_str.

(** X15. The text of a bin follows one pointer per chunk and never reads
    the other: for a bin with [safe_link] false, replacing the
    [fd_demangled] of its chunks by anything leaves [str(bin)] unchanged;
    for a bin with [safe_link] true, replacing their raw [fd] does. This
    is for a [_name] that depends on the class of the bin only and a
    rendering of the flags that reads neither pointer. *)
Theorem X15_str_reads_one_pointer (_name : Bin.t -> string)
    (format_flags_as_str : MallocChunk.t -> string) (b : Bin.t)
    (g : MallocChunk.t -> Z) :
  (forall b1 b2, Bin.class b1 = Bin.class b2 -> _name b1 = _name b2) ->
  (forall v c, format_flags_as_str (set_fd_demangled v c) = format_flags_as_str c) ->
  (forall v c, format_flags_as_str (set_fd v c) = format_flags_as_str c) ->
  (Bin._safe_link b = false ->
   BinStr.__str__ _name format_flags_as_str
     (with_chunks b (map (remangle g) (Bin.malloc_chunks b))) =
   BinStr.__str__ _name format_flags_as_str b) /\
  (Bin._safe_link b = true ->
   BinStr.__str__ _name format_flags_as_str
     (with_chunks b (map (fun c => set_fd (g c) c) (Bin.malloc_chunks b))) =
   BinStr.__str__ _name format_flags_as_str b).
Proof.
  intros Hname Hraw Hdem.
  split; intros Hsl; unfold BinStr.__str__, Bin.chunks_size, Bin.fd, Bin.bin_entry,
    Bin.malloc_chunks; simpl; rewrite Hsl, length_map;
    rewrite (Hname (with_chunks b _) b eq_refl).
  - by rewrite chunks_loop_raw.
  - by rewrite chunks_loop_demangled.
Qed.

Lemma X15_str_reads_one_pointer_witness :
  BinStr.__str__ Cases.class_name Cases.flags_str
    (with_chunks Cases.two_chunk_bin
       (map (remangle (fun _ => 0)) (Bin.malloc_chunks Cases.two_chunk_bin))) =
  BinStr.__str__ Cases.class_name Cases.flags_str Cases.two_chunk_bin.
Proof.
  apply (X15_str_reads_one_pointer Cases.class_name Cases.flags_str Cases.two_chunk_bin
           (fun _ => 0)).
  - intros b1 b2 H. unfold Cases.class_name. by rewrite H.
  - reflexivity.
  - reflexivity.
  - reflexivity.
Defined.

(** * The accessors of the bins: termination and read errors *)

Lemma bind_fuel_terminates {A B} (m : M A) (k : nat -> A -> option (M B)) (n : nat) :
  (forall a, exists r, forall fuel, (n < fuel)%nat -> k fuel a = Some r) ->
  exists r, forall fuel, (n < fuel)%nat -> Accessors.bind_fuel m (k fuel) = Some r.
Proof.
  intros Hk. destruct m as [tr [a|e]]; simpl.
  - destruct (Hk a) as [[tr' r] Hr]. eexists. intros fuel Hfuel.
    by rewrite (Hr fuel Hfuel).
  - by eexists.
Qed.

Lemma for_each_fuel_terminates {A B} (f : nat -> A -> option (M B)) (n : nat) :
  (forall x, exists r, forall fuel, (n < fuel)%nat -> f fuel x = Some r) ->
  forall xs acc, exists r, forall fuel, (n < fuel)%nat ->
    Accessors.for_each_fuel (f fuel) xs acc = Some r.
Proof.
  intros Hf. induction xs as [|x xs IH]; intros acc; simpl.
  - by eexists.
  - destruct (Hf x) as [[tr [y|e]] Hx].
    + destruct (IH (acc ++ [y])) as [[tr' r] Hr]. eexists. intros fuel Hfuel.
      by rewrite (Hx fuel Hfuel), (Hr fuel Hfuel).
    + eexists. intros fuel Hfuel. by rewrite (Hx fuel Hfuel).
Qed.

Lemma bind_fuel_raises {A B} (m : M A) (k : A -> option (M B)) (e : exn) :
  snd m <> Raise e ->
  (forall a tr, k a <> Some (tr, Raise e)) ->
  forall tr, Accessors.bind_fuel m k <> Some (tr, Raise e).
Proof.
  intros Hm Hk tr. destruct m as [tr0 [a|e0]]; simpl in *.
  - specialize (Hk a). destruct (k a) as [[tr' r]|]; [|done].
    intros [= <- ->]. by apply (Hk tr').
  - intros [= <- ->]. done.
Qed.

Lemma for_each_fuel_raises {A B} (f : A -> option (M B)) (e : exn) :
  (forall x tr, f x <> Some (tr, Raise e)) ->
  forall xs acc tr, Accessors.for_each_fuel f xs acc <> Some (tr, Raise e).
Proof.
  intros Hf. induction xs as [|x xs IH]; intros acc tr; simpl; [done|].
  specialize (Hf x). destruct (f x) as [[tr1 [y|e1]]|]; [| |done].
  - specialize (IH (acc ++ [y])).
    destruct (Accessors.for_each_fuel f xs (acc ++ [y])) as [[tr2 r2]|]; [|done].
    intros [= <- ->]. by apply (IH tr2).
  - intros [= <- ->]. by apply (Hf tr1).
Qed.

Lemma malloc_state_raises self i e :
  snd (HeapExplorer.all_arenas_malloc_states self) <> Raise e ->
  e <> IndexError ->
  snd (HeapExplorer.malloc_state self i) <> Raise e.
Proof.
  intros Hall He. unfold HeapExplorer.malloc_state, bind.
  destruct (HeapExplorer.all_arenas_malloc_states self) as [tr [states|e0]]; simpl in *.
  - unfold list_getitem.
    repeat (match goal with
            | |- context [if ?b then _ else _] => destruct b
            | |- context [match ?o with Some _ => _ | None => _ end] => destruct o
            end); congruence.
  - intros [= ->]. done.
Qed.

(** What X1 says of the three methods, in the form the accessors use. *)
Lemma bins_raise_no_OSError (self : BinParser.t) :
  (forall fuel ms tr,
     BinParser.parse_unsorted_bin_from_malloc_state fuel self ms <> Some (tr, Raise OSError)) /\
  (forall fuel ms tr,
     BinParser.parse_small_bins_from_malloc_state fuel self ms <> Some (tr, Raise OSError)) /\
  (forall fuel ms tr,
     BinParser.parse_large_bins_from_malloc_state fuel self ms <> Some (tr, Raise OSError)).
Proof.
  assert (Hone : forall fuel bin_entry tr,
     BinParser._parse_from_bin_entry fuel self bin_entry <> Some (tr, Raise OSError)).
  { intros fuel bin_entry tr H.
    by apply parse_from_bin_entry_trace in H as (_ & _ & Hr); destruct (Hr _ eq_refl). }
  assert (Hall : forall fuel entries tr bins tr',
     BinParser.parse_entries fuel self entries tr bins <> Some (tr', Raise OSError)).
  { intros fuel. induction entries as [|entry entries IH]; intros tr bins tr';
      simpl; [done|].
    pose proof (Hone fuel entry) as He.
    destruct (BinParser._parse_from_bin_entry fuel self entry) as [[tr1 [b|e1]]|];
      [apply IH| |done].
    intros [= <- ->]. by apply (He tr1). }
  split; [intros; apply Hone|]. split; intros; apply Hall.
Qed.

(** X16. The six accessors of the doubly-linked bins terminate: when the
    chunk parser of the explorer succeeds at the addresses of a finite set
    only, any fuel above the size of that set gives the result of
    [unsorted_bin], [small_bins], [large_bins] and of their
    [all_arenas_...] forms, however many arenas and entries there are. *)
Theorem X16_bin_accessors_terminate (self : HeapExplorer.t) (D : gset Z)
    (arena_index : Z) :
  (forall a c, parse_of (HeapExplorer._bin_parser self) a = Ok c -> a ∈ D) ->
  exists unsorted small large all_unsorted all_small all_large,
    forall fuel, (size D < fuel)%nat ->
      Accessors.unsorted_bin fuel self arena_index = Some unsorted /\
      Accessors.small_bins fuel self arena_index = Some small /\
      Accessors.large_bins fuel self arena_index = Some large /\
      Accessors.all_arenas_unsorted_bins fuel self = Some all_unsorted /\
      Accessors.all_arenas_small_bins fuel self = Some all_small /\
      Accessors.all_arenas_large_bins fuel self = Some all_large.
Proof.
  intros HD.
  assert (Hu : forall ms, exists r, forall fuel, (size D < fuel)%nat ->
    BinParser.parse_unsorted_bin_from_malloc_state fuel (HeapExplorer._bin_parser self) ms
      = Some r).
  { intros ms. apply parse_from_bin_entry_terminates, HD. }
  assert (Hs : forall ms, exists r, forall fuel, (size D < fuel)%nat ->
    BinParser.parse_small_bins_from_malloc_state fuel (HeapExplorer._bin_parser self) ms
      = Some r).
  { intros ms. apply parse_entries_terminates, HD. }
  assert (Hl : forall ms, exists r, forall fuel, (size D < fuel)%nat ->
    BinParser.parse_large_bins_from_malloc_state fuel (HeapExplorer._bin_parser self) ms
      = Some r).
  { intros ms. apply parse_entries_terminates, HD. }
  destruct (bind_fuel_terminates (HeapExplorer.malloc_state self arena_index) _ _ Hu)
    as [u Hu'].
  destruct (bind_fuel_terminates (HeapExplorer.malloc_state self arena_index) _ _ Hs)
    as [s Hs'].
  destruct (bind_fuel_terminates (HeapExplorer.malloc_state self arena_index) _ _ Hl)
    as [l Hl'].
  destruct (bind_fuel_terminates (HeapExplorer.all_arenas_malloc_states self)
              (fun fuel states => Accessors.for_each_fuel
                 (BinParser.parse_unsorted_bin_from_malloc_state fuel
                    (HeapExplorer._bin_parser self)) states []) (size D)
              (fun states => for_each_fuel_terminates _ _ Hu states [])) as [au Hau].
  destruct (bind_fuel_terminates (HeapExplorer.all_arenas_malloc_states self)
              (fun fuel states => Accessors.for_each_fuel
                 (BinParser.parse_small_bins_from_malloc_state fuel
                    (HeapExplorer._bin_parser self)) states []) (size D)
              (fun states => for_each_fuel_terminates _ _ Hs states [])) as [as_ Has].
  destruct (bind_fuel_terminates (HeapExplorer.all_arenas_malloc_states self)
              (fun fuel states => Accessors.for_each_fuel
                 (BinParser.parse_large_bins_from_malloc_state fuel
                    (HeapExplorer._bin_parser self)) states []) (size D)
              (fun states => for_each_fuel_terminates _ _ Hl states [])) as [al Hal].
  exists u, s, l, au, as_, al. intros fuel Hfuel.
  repeat split; [apply Hu'|apply Hs'|apply Hl'|apply Hau|apply Has|apply Hal]; done.
Qed.

Lemma X16_bin_accessors_terminate_witness :
  exists self,
    Fixtures.explorer (Fixtures.target [2; 31] Fixtures.two_ring 0x250) = Some self /\
    exists unsorted small large all_unsorted all_small all_large,
      forall fuel, (size (dom Fixtures.bins_words) < fuel)%nat ->
        Accessors.unsorted_bin fuel self 0 = Some unsorted /\
        Accessors.small_bins fuel self 0 = Some small /\
        Accessors.large_bins fuel self 0 = Some large /\
        Accessors.all_arenas_unsorted_bins fuel self = Some all_unsorted /\
        Accessors.all_arenas_small_bins fuel self = Some all_small /\
        Accessors.all_arenas_large_bins fuel self = Some all_large.
Proof.
  eexists. split; [vm_compute; reflexivity|].
  match goal with |- context [Accessors.unsorted_bin _ ?s 0] =>
    apply (X16_bin_accessors_terminate s (dom Fixtures.bins_words) 0)
  end.
  intros a c. apply (parse_readable 8 Fixtures.bins_words).
Defined.

(** X17. Read errors of the chunks are contained by the explorer too: as
    long as the enumeration of the malloc states does not itself raise
    [OSError], none of the six accessors of the doubly-linked bins raises
    [OSError], whatever the chunk parser does. *)
Theorem X17_bin_accessors_contain_read_errors (self : HeapExplorer.t) (fuel : nat) :
  snd (HeapExplorer.all_arenas_malloc_states self) <> Raise OSError ->
  (forall i tr, Accessors.unsorted_bin fuel self i <> Some (tr, Raise OSError)) /\
  (forall i tr, Accessors.small_bins fuel self i <> Some (tr, Raise OSError)) /\
  (forall i tr, Accessors.large_bins fuel self i <> Some (tr, Raise OSError)) /\
  (forall tr, Accessors.all_arenas_unsorted_bins fuel self <> Some (tr, Raise OSError)) /\
  (forall tr, Accessors.all_arenas_small_bins fuel self <> Some (tr, Raise OSError)) /\
  (forall tr, Accessors.all_arenas_large_bins fuel self <> Some (tr, Raise OSError)).
Proof.
  intros Hall.
  destruct (bins_raise_no_OSError (HeapExplorer._bin_parser self)) as (Hu & Hs & Hl).
  assert (Hms : forall i, snd (HeapExplorer.malloc_state self i) <> Raise OSError)
    by (intros i; by apply malloc_state_raises).
  split; [intros i; apply bind_fuel_raises; [apply Hms|apply Hu]|].
  split; [intros i; apply bind_fuel_raises; [apply Hms|apply Hs]|].
  split; [intros i; apply bind_fuel_raises; [apply Hms|apply Hl]|].
  split; [apply bind_fuel_raises; [done|]; intros states; apply for_each_fuel_raises, Hu|].
  split; [apply bind_fuel_raises; [done|]; intros states; apply for_each_fuel_raises, Hs|].
  apply bind_fuel_raises; [done|]. intros states. apply for_each_fuel_raises, Hl.
Qed.

Lemma X17_bin_accessors_contain_read_errors_witness :
  exists self,
    Fixtures.explorer (Fixtures.target [2; 31] Fixtures.two_ring 0x250) = Some self /\
    forall i tr, Accessors.unsorted_bin 1 self i <> Some (tr, Raise OSError).
Proof.
  eexists. split; [vm_compute; reflexivity|].
  match goal with |- forall i tr, Accessors.unsorted_bin _ ?s i <> _ =>
    apply (fun H => proj1 (X17_bin_accessors_contain_read_errors s 1 H))
  end.
  vm_compute. discriminate.
Defined.
